(** * RDAP wrapper of the whois package: model and verified properties

    The model follows [rdap.go].  A Go [string] is a sequence of bytes and is
    modelled as [list ascii]; a Go map with string keys is a [gmap]; a slice
    is a [list]; a pointer that may be nil is an [option]; a method is a
    function whose first argument is the receiver. *)

From Stdlib Require Import Ascii String NArith Bool.
From stdpp Require Import base option list gmap strings.

Local Open Scope list_scope.

(** ** Go strings *)

(** A string literal of the Go source. *)
Definition str (s : string) : list ascii := list_ascii_of_string s.

(** A byte given by its code. *)
Definition byte (n : N) : ascii := ascii_of_N n.

Definition LF : ascii := byte 10.

Definition inRange (lo hi c : ascii) : bool :=
  (N_of_ascii lo <=? N_of_ascii c)%N && (N_of_ascii c <=? N_of_ascii hi)%N.

(** [s == t] on Go strings. *)
Definition streq (s t : list ascii) : bool := bool_decide (s = t).

(** [strings.HasPrefix(s, prefix)]. *)
Fixpoint HasPrefix (s prefix : list ascii) {struct prefix} : bool :=
  match prefix, s with
  | [], _ => true
  | p :: prefix', c :: s' => Ascii.eqb c p && HasPrefix s' prefix'
  | _ :: _, [] => false
  end.

(** [strings.Contains(s, substr)]. *)
Fixpoint Contains (s substr : list ascii) : bool :=
  HasPrefix s substr ||
  match s with
  | [] => false
  | _ :: s' => Contains s' substr
  end.

(** [strings.Cut(s, sep)] for a one-byte separator: the text before and
    after the first occurrence of [sep], if there is one. *)
Fixpoint Cut (s : list ascii) (sep : ascii) : option (list ascii * list ascii) :=
  match s with
  | [] => None
  | c :: s' =>
      if Ascii.eqb c sep then Some ([], s')
      else match Cut s' sep with
           | Some (before, after) => Some (c :: before, after)
           | None => None
           end
  end.

(** [strings.SplitN(s, sep, n)] for a one-byte separator and [n >= 0]: at
    most [n] pieces, the last one being the unsplit remainder.  As in
    [genSplit], [n] is first capped at [len(s) + 1]. *)
Fixpoint splitLoop (s : list ascii) (sep : ascii) (n : nat) : list (list ascii) :=
  match n with
  | 0 => []
  | 1 => [s]
  | S n' =>
      match Cut s sep with
      | None => [s]
      | Some (before, after) => before :: splitLoop after sep n'
      end
  end.

Definition SplitN (s : list ascii) (sep : ascii) (n : nat) : list (list ascii) :=
  splitLoop s sep (Nat.min n (S (length s))).

(** [strings.Split(s, sep)] for a one-byte separator: all the pieces
    ([genSplit] with [n = Count(s, sep) + 1]). *)
Definition Count (s : list ascii) (sep : ascii) : nat :=
  length (filter (λ c, c = sep) s).

Definition Split (s : list ascii) (sep : ascii) : list (list ascii) :=
  splitLoop s sep (S (Count s sep)).

(** *** White space ([unicode.IsSpace]) in UTF-8

    One-byte runes: tab, LF, VT, FF, CR and space.  Two-byte runes: U+0085
    and U+00A0.  Three-byte runes: U+1680, U+2000..U+200A, U+2028, U+2029,
    U+202F, U+205F and U+3000. *)
Definition asciiSpace (c : ascii) : bool :=
  inRange (byte 9) (byte 13) c || Ascii.eqb c (byte 32).

Definition space2 (c d : ascii) : bool :=
  Ascii.eqb c (byte 194) && (Ascii.eqb d (byte 133) || Ascii.eqb d (byte 160)).

Definition space3 (c d e : ascii) : bool :=
  (Ascii.eqb c (byte 225) && Ascii.eqb d (byte 154) && Ascii.eqb e (byte 128))
  || (Ascii.eqb c (byte 226) && Ascii.eqb d (byte 128)
      && (inRange (byte 128) (byte 138) e || Ascii.eqb e (byte 168)
          || Ascii.eqb e (byte 169) || Ascii.eqb e (byte 175)))
  || (Ascii.eqb c (byte 226) && Ascii.eqb d (byte 129) && Ascii.eqb e (byte 159))
  || (Ascii.eqb c (byte 227) && Ascii.eqb d (byte 128) && Ascii.eqb e (byte 128)).

(** Drop white-space runes from the front.  [two] and [three] tell whether
    the next two or three bytes are a white-space rune. *)
Fixpoint trimFront (two : ascii → ascii → bool)
    (three : ascii → ascii → ascii → bool) (s : list ascii) : list ascii :=
  match s with
  | [] => []
  | c :: r =>
      if asciiSpace c then trimFront two three r
      else match r with
           | [] => s
           | d :: r' =>
               if two c d then trimFront two three r'
               else match r' with
                    | [] => s
                    | e :: r'' =>
                        if three c d e then trimFront two three r'' else s
                    end
           end
  end.

(** [strings.TrimLeftFunc(s, unicode.IsSpace)]. *)
Definition trimLeft (s : list ascii) : list ascii := trimFront space2 space3 s.

(** The same scan over the reversed string: the last rune of the string is
    met first, its bytes in reverse order. *)
Definition trimRev (s : list ascii) : list ascii :=
  trimFront (λ c d, space2 d c) (λ c d e, space3 e d c) s.

(** [strings.TrimRightFunc(s, unicode.IsSpace)]. *)
Definition trimRight (s : list ascii) : list ascii := rev (trimRev (rev s)).

(** [strings.TrimSpace(s)]: leading, then trailing white space removed. *)
Definition TrimSpace (s : list ascii) : list ascii := trimRight (trimLeft s).

(** [strings.ToLower(s)].  On a string of ASCII bytes this is Go's result:
    the capitals are mapped to small letters and nothing else changes.  Of
    the runes outside ASCII exactly two are lowered to an ASCII letter,
    U+0130 to [i] and U+212A to [k], and they are lowered here as well.
    Every other byte from 128 on is left in place, where Go lowers the
    letter to another rune outside ASCII and replaces a byte that is not
    UTF-8 by U+FFFD.  So for a string outside ASCII the bytes from 128 on
    may differ from Go's, while the result is an ASCII string here exactly
    when it is one in Go, and then the same one: comparing the result with
    the ASCII labels of the parsers gives what Go gives.  Nothing is stated
    below about the lower-case form of a string outside ASCII. *)
Definition lowerByte (c : ascii) : ascii :=
  if inRange "A" "Z" c then ascii_of_N (N_of_ascii c + 32) else c.

Fixpoint ToLower (s : list ascii) : list ascii :=
  match s with
  | [] => []
  | c :: r =>
      match r with
      | d :: r' =>
          if Ascii.eqb c (byte 196) && Ascii.eqb d (byte 176)
          then "i"%char :: ToLower r'
          else match r' with
               | e :: r'' =>
                   if Ascii.eqb c (byte 226) && Ascii.eqb d (byte 132)
                      && Ascii.eqb e (byte 170)
                   then "k"%char :: ToLower r''
                   else lowerByte c :: ToLower r
               | [] => lowerByte c :: ToLower r
               end
      | [] => lowerByte c :: ToLower r
      end
  end.

(** ** Regular expressions ([regexp])

    Only the constructs of the one pattern of [rdap.go] are needed: byte
    classes, concatenation, alternation and repetition.  Every class of that
    pattern is a set of ASCII bytes, so matching byte by byte agrees with
    matching rune by rune. *)
Inductive regex : Type :=
  | Void : regex
  | Eps : regex
  | Cls : (ascii → bool) → regex
  | Seq : regex → regex → regex
  | Alt : regex → regex → regex
  | Star : regex → regex.

(** [r{n}] and [r{min,max}] are written out. *)
Fixpoint Times (r : regex) (n : nat) : regex :=
  match n with
  | 0 => Eps
  | S n' => Seq r (Times r n')
  end.

Fixpoint UpTo (r : regex) (n : nat) : regex :=
  match n with
  | 0 => Eps
  | S n' => Alt Eps (Seq r (UpTo r n'))
  end.

Definition Rep (r : regex) (min max : nat) : regex :=
  Seq (Times r min) (UpTo r (max - min)).

Definition Plus (r : regex) : regex := Seq r (Star r).

Fixpoint nullable (r : regex) : bool :=
  match r with
  | Void => false
  | Eps => true
  | Cls _ => false
  | Seq r1 r2 => nullable r1 && nullable r2
  | Alt r1 r2 => nullable r1 || nullable r2
  | Star _ => true
  end.

Fixpoint deriv (c : ascii) (r : regex) : regex :=
  match r with
  | Void => Void
  | Eps => Void
  | Cls p => if p c then Eps else Void
  | Seq r1 r2 =>
      if nullable r1 then Alt (Seq (deriv c r1) r2) (deriv c r2)
      else Seq (deriv c r1) r2
  | Alt r1 r2 => Alt (deriv c r1) (deriv c r2)
  | Star r1 => Seq (deriv c r1) (Star r1)
  end.

(** The whole of [s] matches [r]. *)
Fixpoint fullMatch (r : regex) (s : list ascii) : bool :=
  match s with
  | [] => nullable r
  | c :: s' => fullMatch (deriv c r) s'
  end.

(** [re.MatchString(s)] for a pattern of the form [^r1$|^r2$]: without the
    multi-line flag [^] and [$] hold at the two ends of the text only, so the
    search succeeds exactly when the whole text matches [r1] or [r2]. *)
Definition MatchString (r : regex) (s : list ascii) : bool := fullMatch r s.

(** ** The RDAP data model *)

(** Go's multiple results [(value, error)]. *)
Inductive result (E A : Type) : Type :=
  | Ok : A → result E A
  | Err : E → result E A.
Arguments Ok {E A} _.
Arguments Err {E A} _.

(** Error values: the causes that the whois client reports, of some type [E],
    and what [fmt.Errorf(format + ": %w", cause)] makes of an error. *)
Inductive error (E : Type) : Type :=
  | Cause : E → error E
  | Errorf : list ascii → error E → error E.
Arguments Cause {E} _.
Arguments Errorf {E} _ _.

(** The structs of [rdap.go], with the fields that the code assigns; all the
    other fields keep their zero value. *)
Record RDAPNotice : Type := {
  NoticeTitle : list ascii;
  NoticeType : list ascii;
  NoticeDescription : list (list ascii)
}.

Record RDAPEntity : Type := {
  EntityObjectClassName : list ascii;
  EntityHandle : list ascii;
  EntityRoles : list (list ascii)
}.

Record RDAPEvent : Type := {
  EventAction : list ascii;
  EventDate : list ascii
}.

Record RDAPNameserver : Type := {
  NsObjectClassName : list ascii;
  NsLdhName : list ascii
}.

Record RDAPNetwork : Type := {
  NetObjectClassName : list ascii;
  NetCountry : list ascii
}.

Record RDAPRemark : Type := {
  RemarkDescription : list (list ascii)
}.

Record RDAPResponse : Type := {
  RdapConformance : list (list ascii);
  Notices : list RDAPNotice;
  StartAddress : list ascii;
  EndAddress : list ascii;
  IPVersion : list ascii;
  Name : list ascii;
  Entities : list RDAPEntity;
  Events : list RDAPEvent;
  Status : list (list ascii);
  ObjectClassName : list ascii;
  LdhName : list ascii;
  UnicodeName : list ascii;
  Nameservers : list RDAPNameserver;
  Network : option RDAPNetwork;
  Autnum : list ascii;
  Remarks : list RDAPRemark;
  RawWhois : list ascii;
  WhoisParsed : gmap (list ascii) (list ascii)
}.

(** Assignments to single fields of the response, [response.F = v] and
    [response.F = append(response.F, v)]. *)
Definition setName (v : list ascii) (r : RDAPResponse) : RDAPResponse :=
  {| RdapConformance := RdapConformance r; Notices := Notices r;
     StartAddress := StartAddress r; EndAddress := EndAddress r;
     IPVersion := IPVersion r; Name := v; Entities := Entities r;
     Events := Events r; Status := Status r;
     ObjectClassName := ObjectClassName r; LdhName := LdhName r;
     UnicodeName := UnicodeName r; Nameservers := Nameservers r;
     Network := Network r; Autnum := Autnum r; Remarks := Remarks r;
     RawWhois := RawWhois r; WhoisParsed := WhoisParsed r |}.

Definition appendEntity (v : RDAPEntity) (r : RDAPResponse) : RDAPResponse :=
  {| RdapConformance := RdapConformance r; Notices := Notices r;
     StartAddress := StartAddress r; EndAddress := EndAddress r;
     IPVersion := IPVersion r; Name := Name r; Entities := Entities r ++ [v];
     Events := Events r; Status := Status r;
     ObjectClassName := ObjectClassName r; LdhName := LdhName r;
     UnicodeName := UnicodeName r; Nameservers := Nameservers r;
     Network := Network r; Autnum := Autnum r; Remarks := Remarks r;
     RawWhois := RawWhois r; WhoisParsed := WhoisParsed r |}.

Definition appendEvent (v : RDAPEvent) (r : RDAPResponse) : RDAPResponse :=
  {| RdapConformance := RdapConformance r; Notices := Notices r;
     StartAddress := StartAddress r; EndAddress := EndAddress r;
     IPVersion := IPVersion r; Name := Name r; Entities := Entities r;
     Events := Events r ++ [v]; Status := Status r;
     ObjectClassName := ObjectClassName r; LdhName := LdhName r;
     UnicodeName := UnicodeName r; Nameservers := Nameservers r;
     Network := Network r; Autnum := Autnum r; Remarks := Remarks r;
     RawWhois := RawWhois r; WhoisParsed := WhoisParsed r |}.

Definition appendStatus (v : list ascii) (r : RDAPResponse) : RDAPResponse :=
  {| RdapConformance := RdapConformance r; Notices := Notices r;
     StartAddress := StartAddress r; EndAddress := EndAddress r;
     IPVersion := IPVersion r; Name := Name r; Entities := Entities r;
     Events := Events r; Status := Status r ++ [v];
     ObjectClassName := ObjectClassName r; LdhName := LdhName r;
     UnicodeName := UnicodeName r; Nameservers := Nameservers r;
     Network := Network r; Autnum := Autnum r; Remarks := Remarks r;
     RawWhois := RawWhois r; WhoisParsed := WhoisParsed r |}.

Definition appendNameserver (v : RDAPNameserver) (r : RDAPResponse) : RDAPResponse :=
  {| RdapConformance := RdapConformance r; Notices := Notices r;
     StartAddress := StartAddress r; EndAddress := EndAddress r;
     IPVersion := IPVersion r; Name := Name r; Entities := Entities r;
     Events := Events r; Status := Status r;
     ObjectClassName := ObjectClassName r; LdhName := LdhName r;
     UnicodeName := UnicodeName r; Nameservers := Nameservers r ++ [v];
     Network := Network r; Autnum := Autnum r; Remarks := Remarks r;
     RawWhois := RawWhois r; WhoisParsed := WhoisParsed r |}.

Definition setNetwork (v : RDAPNetwork) (r : RDAPResponse) : RDAPResponse :=
  {| RdapConformance := RdapConformance r; Notices := Notices r;
     StartAddress := StartAddress r; EndAddress := EndAddress r;
     IPVersion := IPVersion r; Name := Name r; Entities := Entities r;
     Events := Events r; Status := Status r;
     ObjectClassName := ObjectClassName r; LdhName := LdhName r;
     UnicodeName := UnicodeName r; Nameservers := Nameservers r;
     Network := Some v; Autnum := Autnum r; Remarks := Remarks r;
     RawWhois := RawWhois r; WhoisParsed := WhoisParsed r |}.

Definition appendRemark (v : RDAPRemark) (r : RDAPResponse) : RDAPResponse :=
  {| RdapConformance := RdapConformance r; Notices := Notices r;
     StartAddress := StartAddress r; EndAddress := EndAddress r;
     IPVersion := IPVersion r; Name := Name r; Entities := Entities r;
     Events := Events r; Status := Status r;
     ObjectClassName := ObjectClassName r; LdhName := LdhName r;
     UnicodeName := UnicodeName r; Nameservers := Nameservers r;
     Network := Network r; Autnum := Autnum r; Remarks := Remarks r ++ [v];
     RawWhois := RawWhois r; WhoisParsed := WhoisParsed r |}.

Definition appendNotice (v : RDAPNotice) (r : RDAPResponse) : RDAPResponse :=
  {| RdapConformance := RdapConformance r; Notices := Notices r ++ [v];
     StartAddress := StartAddress r; EndAddress := EndAddress r;
     IPVersion := IPVersion r; Name := Name r; Entities := Entities r;
     Events := Events r; Status := Status r;
     ObjectClassName := ObjectClassName r; LdhName := LdhName r;
     UnicodeName := UnicodeName r; Nameservers := Nameservers r;
     Network := Network r; Autnum := Autnum r; Remarks := Remarks r;
     RawWhois := RawWhois r; WhoisParsed := WhoisParsed r |}.

(** [response.WhoisParsed[key] = value]. *)
Definition setParsed (key value : list ascii) (r : RDAPResponse) : RDAPResponse :=
  {| RdapConformance := RdapConformance r; Notices := Notices r;
     StartAddress := StartAddress r; EndAddress := EndAddress r;
     IPVersion := IPVersion r; Name := Name r; Entities := Entities r;
     Events := Events r; Status := Status r;
     ObjectClassName := ObjectClassName r; LdhName := LdhName r;
     UnicodeName := UnicodeName r; Nameservers := Nameservers r;
     Network := Network r; Autnum := Autnum r; Remarks := Remarks r;
     RawWhois := RawWhois r; WhoisParsed := <[key := value]> (WhoisParsed r) |}.

(** The response that [convertWhoisToRDAP] starts from. *)
Definition newResponse (whoisData : list ascii) : RDAPResponse :=
  {| RdapConformance := [str "rdap_level_0"]; Notices := [];
     StartAddress := []; EndAddress := []; IPVersion := []; Name := [];
     Entities := []; Events := []; Status := []; ObjectClassName := [];
     LdhName := []; UnicodeName := []; Nameservers := []; Network := None;
     Autnum := []; Remarks := []; RawWhois := whoisData; WhoisParsed := ∅ |}.

(** The three assignments of the domain branch.  The lower-case form is
    Go's for a query of ASCII bytes, see [ToLower]. *)
Definition asDomain (query : list ascii) (r : RDAPResponse) : RDAPResponse :=
  {| RdapConformance := RdapConformance r; Notices := Notices r;
     StartAddress := StartAddress r; EndAddress := EndAddress r;
     IPVersion := IPVersion r; Name := Name r; Entities := Entities r;
     Events := Events r; Status := Status r;
     ObjectClassName := str "domain"; LdhName := ToLower query;
     UnicodeName := query; Nameservers := Nameservers r;
     Network := Network r; Autnum := Autnum r; Remarks := Remarks r;
     RawWhois := RawWhois r; WhoisParsed := WhoisParsed r |}.

(** The four assignments of the IP branch. *)
Definition asIP (query version : list ascii) (r : RDAPResponse) : RDAPResponse :=
  {| RdapConformance := RdapConformance r; Notices := Notices r;
     StartAddress := query; EndAddress := query;
     IPVersion := version; Name := Name r; Entities := Entities r;
     Events := Events r; Status := Status r;
     ObjectClassName := str "ip network"; LdhName := LdhName r;
     UnicodeName := UnicodeName r; Nameservers := Nameservers r;
     Network := Network r; Autnum := Autnum r; Remarks := Remarks r;
     RawWhois := RawWhois r; WhoisParsed := WhoisParsed r |}.

(** The two assignments of the ASN branch. *)
Definition asAutnum (query : list ascii) (r : RDAPResponse) : RDAPResponse :=
  {| RdapConformance := RdapConformance r; Notices := Notices r;
     StartAddress := StartAddress r; EndAddress := EndAddress r;
     IPVersion := IPVersion r; Name := Name r; Entities := Entities r;
     Events := Events r; Status := Status r;
     ObjectClassName := str "autnum"; LdhName := LdhName r;
     UnicodeName := UnicodeName r; Nameservers := Nameservers r;
     Network := Network r; Autnum := query; Remarks := Remarks r;
     RawWhois := RawWhois r; WhoisParsed := WhoisParsed r |}.

(** ** Helper functions of [rdap.go] *)

Definition digit : regex := Cls (inRange "0" "9").

Definition hexOrColon : regex :=
  Cls (λ c, inRange "0" "9" c || inRange "a" "f" c || inRange "A" "F" c
            || Ascii.eqb c ":").

(** The pattern [^(?:[0-9]{1,3}\.){3}[0-9]{1,3}$|^[0-9a-fA-F:]+$]. *)
Definition ipRegex : regex :=
  Alt (Seq (Rep (Seq (Rep digit 1 3) (Cls (Ascii.eqb "."))) 3 3) (Rep digit 1 3))
      (Plus hexOrColon).

Definition isIP (query : list ascii) : bool := MatchString ipRegex query.

Definition isDomain (query : list ascii) : bool :=
  Contains query (str ".") && negb (isIP query).

(** Modelled from the spec: [IsASN], a function of the whois package that
    [rdap.go] calls but does not define.  An ASN is a bare decimal integer,
    or the decimal integer prefixed with the marker [AS] in either case. *)
Definition IsASN (s : list ascii) : bool :=
  let digits :=
    match s with
    | a :: b :: r =>
        if Ascii.eqb (lowerByte a) "a" && Ascii.eqb (lowerByte b) "s" then r
        else s
    | _ => s
    end in
  match digits with
  | [] => false
  | _ :: _ => forallb (inRange "0" "9") digits
  end.

Definition isASN (query : list ascii) : bool := IsASN query.

Definition getIPVersion (query : list ascii) : list ascii :=
  if Contains query (str ":") then str "v6" else str "v4".

(** ** The parsers *)

(** The loop body that [parseDomainWhois], [parseIPWhois] and
    [parseASNWhois] have in common: trim the line, skip it when it is empty
    or a comment, split it at the first colon, skip it when there is none,
    trim the two parts, record them in [WhoisParsed], then run the parser's
    own [switch], here [fields]. *)
Definition parseLine
    (fields : list ascii → list ascii → RDAPResponse → RDAPResponse)
    (response : RDAPResponse) (line : list ascii) : RDAPResponse :=
  let line := TrimSpace line in
  if streq line [] || HasPrefix line (str "%") then response
  else
    match SplitN line ":" 2 with
    | [part0; part1] =>
        let key := TrimSpace part0 in
        let value := TrimSpace part1 in
        fields key value (setParsed key value response)
    | _ => response
    end.

(** [for _, line := range strings.Split(whoisData, "\n")]. *)
Definition parseLines
    (fields : list ascii → list ascii → RDAPResponse → RDAPResponse)
    (response : RDAPResponse) (whoisData : list ascii) : RDAPResponse :=
  fold_left (parseLine fields) (Split whoisData LF) response.

(** The [switch strings.ToLower(key)] of [parseDomainWhois]. *)
Definition domainFields (key value : list ascii) (response : RDAPResponse)
    : RDAPResponse :=
  let k := ToLower key in
  if streq k (str "domain name") then setName value response
  else if streq k (str "registrar") then
    appendEntity {| EntityObjectClassName := str "entity";
                    EntityHandle := value;
                    EntityRoles := [str "registrar"] |} response
  else if streq k (str "created") then
    appendEvent {| EventAction := str "registration"; EventDate := value |}
                response
  else if streq k (str "paid-till") || streq k (str "expires") then
    appendEvent {| EventAction := str "expiration"; EventDate := value |}
                response
  else if streq k (str "updated") then
    appendEvent {| EventAction := str "last changed"; EventDate := value |}
                response
  else if streq k (str "nserver") then
    appendNameserver {| NsObjectClassName := str "nameserver";
                        NsLdhName := value |} response
  else if streq k (str "status") then appendStatus value response
  else response.

(** The [switch] of [parseIPWhois].  Turning a nil [Remarks] into an empty
    slice before the append changes nothing in a list. *)
Definition ipFields (key value : list ascii) (response : RDAPResponse)
    : RDAPResponse :=
  let k := ToLower key in
  if streq k (str "netname") || streq k (str "network name") then
    setName value response
  else if streq k (str "descr") || streq k (str "description") then
    appendRemark {| RemarkDescription := [value] |} response
  else if streq k (str "country") then
    setNetwork {| NetObjectClassName := str "ip network";
                  NetCountry := value |} response
  else if streq k (str "created") then
    appendEvent {| EventAction := str "registration"; EventDate := value |}
                response
  else if streq k (str "last-modified") then
    appendEvent {| EventAction := str "last changed"; EventDate := value |}
                response
  else response.

(** The [switch] of [parseASNWhois]. *)
Definition asnFields (key value : list ascii) (response : RDAPResponse)
    : RDAPResponse :=
  let k := ToLower key in
  if streq k (str "as-name") || streq k (str "aut-num") then
    setName value response
  else if streq k (str "descr") || streq k (str "description") then
    appendRemark {| RemarkDescription := [value] |} response
  else if streq k (str "created") then
    appendEvent {| EventAction := str "registration"; EventDate := value |}
                response
  else if streq k (str "last-modified") then
    appendEvent {| EventAction := str "last changed"; EventDate := value |}
                response
  else response.

(** The notice that every response ends with. *)
Definition termsOfService : RDAPNotice :=
  {| NoticeTitle := str "Terms of Service";
     NoticeType := str "result set truncated due to authorization";
     NoticeDescription :=
       [str "This response has been truncated due to authorization."] |}.

(** ** The client *)

Section Client.

(** [S] is the state that a whois query acts on (the network) and [E] the
    type of the failures that it reports. *)
Context {S E : Type}.

(** [RDAPClient] embeds the whois [Client], of which [rdap.go] uses the
    method [Whois] only; that method is defined elsewhere, so a client is
    given here by what its [Whois] does. *)
Record RDAPClient : Type := {
  Whois : list ascii → S → result E (list ascii) * S
}.

Definition parseDomainWhois (rc : RDAPClient) (response : RDAPResponse)
    (whoisData : list ascii) : RDAPResponse :=
  parseLines domainFields response whoisData.

Definition parseIPWhois (rc : RDAPClient) (response : RDAPResponse)
    (whoisData : list ascii) : RDAPResponse :=
  parseLines ipFields response whoisData.

Definition parseASNWhois (rc : RDAPClient) (response : RDAPResponse)
    (whoisData : list ascii) : RDAPResponse :=
  parseLines asnFields response whoisData.

Definition convertWhoisToRDAP (rc : RDAPClient) (query whoisData : list ascii)
    : result (error E) RDAPResponse :=
  let response := newResponse whoisData in
  let response :=
    if isDomain query then
      parseDomainWhois rc (asDomain query response) whoisData
    else if isIP query then
      parseIPWhois rc (asIP query (getIPVersion query) response) whoisData
    else if isASN query then
      parseASNWhois rc (asAutnum query response) whoisData
    else response in
  Ok (appendNotice termsOfService response).

Definition QueryRDAP (rc : RDAPClient) (query : list ascii) (s : S)
    : result (error E) RDAPResponse * S :=
  match Whois rc query s with
  | (Err err, s') => (Err (Errorf (str "failed to query WHOIS") (Cause err)), s')
  | (Ok whoisData, s') =>
      match convertWhoisToRDAP rc query whoisData with
      | Err err => (Err (Errorf (str "failed to convert WHOIS to RDAP") err), s')
      | Ok rdapResponse => (Ok rdapResponse, s')
      end
  end.

End Client.

Arguments RDAPClient : clear implicits.

(** The kind of a query: the branch of [convertWhoisToRDAP] that it takes,
    an IP query being split by [getIPVersion]. *)
Inductive QueryKind : Type := Domain | IPv4 | IPv6 | ASN | Unknown.

Definition classify (query : list ascii) : QueryKind :=
  if isDomain query then Domain
  else if isIP query then
    if streq (getIPVersion query) (str "v6") then IPv6 else IPv4
  else if isASN query then ASN
  else Unknown.

Definition objectClass (kind : QueryKind) : list ascii :=
  match kind with
  | Domain => str "domain"
  | IPv4 | IPv6 => str "ip network"
  | ASN => str "autnum"
  | Unknown => []
  end.

(** ** The resolver behind [Whois]

    [rdap.go] obtains the raw text from the method [Whois] of the embedded
    client, which it does not define.  This part follows the specification
    of that resolver: data model, Referral Follower and error kinds. *)

(** Modelled from the spec: [ServerAddress], a registry endpoint given by a
    host and an optional port that defaults to the well-known port of the
    protocol. *)
Record ServerAddress : Type := {
  host : list ascii;
  port : option N
}.

Definition wellKnownPort : N := 43.

(** Modelled from the spec: [Query], the input string with its kind. *)
Record Query : Type := {
  input : list ascii;
  kind : QueryKind
}.

(** Modelled from the spec: the failures of the Transport Client (connect
    failed, timeout, short read). *)
Inductive TransportError : Type := ConnectFailed | Timeout | ShortRead.

(** Modelled from the spec: the error kinds of a resolution.  A transport
    failure carries the hop count and the last server attempted.  Too many
    hops and a malformed referral are no failures: the first is reported in
    the result, the second counts as no referral. *)
Inductive ResolutionError : Type :=
  | UnclassifiedInput : ResolutionError
  | NoServer : ResolutionError
  | Transport : nat → ServerAddress → ResolutionError.

(** Modelled from the spec: the states in which the referral loop stops
    with a terminal response. *)
Inductive Stop : Type := Terminal | Cycle | DepthExceeded.

(** Modelled from the spec: [RawResult], the terminal response with the
    chain of (server, response) pairs in the order queried; [stopped] tells
    the caller whether the chain was cut at the hop limit. *)
Record RawResult : Type := {
  terminal : list ascii;
  chain : list (ServerAddress * list ascii);
  stopped : Stop
}.

Section Resolver.

(** The state of the world outside, read and changed by the transport. *)
Context {World : Type}.

(** The Transport Client: one exchange of request and response. *)
Variable transport :
  ServerAddress → list ascii → World → result TransportError (list ascii) * World.

(** The Server Directory. *)
Variable resolveInitialServer : QueryKind → list ascii → option ServerAddress.

(** The scan of a response for its first well-formed referral hint. *)
Variable referralHint : QueryKind → list ascii → option ServerAddress.

(** The normal form of a host name. *)
Variable normalHost : list ascii → list ascii.

(** Modelled from the spec: the normalized host and port of a server
    address, by which the cycle guard compares servers. *)
Definition normalized (a : ServerAddress) : list ascii * N :=
  (normalHost (host a), default wellKnownPort (port a)).

(** Modelled from the spec: the network that the Transport Client works
    on, the world outside together with the log of the exchanges made. *)
Record Net : Type := {
  world : World;
  sent : list (ServerAddress * list ascii)
}.

(** Modelled from the spec: one call of the Transport Client, entered in
    the log. *)
Definition exchange (server : ServerAddress) (text : list ascii) (net : Net)
    : result TransportError (list ascii) * Net :=
  let (answer, w) := transport server text (world net) in
  (answer, {| world := w; sent := sent net ++ [(server, text)] |}).

(** Modelled from the spec: the cycle guard, whether the normalized address
    already appears in the chain. *)
Definition inChain (a : ServerAddress) (c : list (ServerAddress * list ascii))
    : bool :=
  bool_decide (normalized a ∈ map (λ hop, normalized hop.1) c).

(** Modelled from the spec: step 2 of the Referral Follower.  [allowed] is
    the number of hops still allowed, [maxHops - hops]: the hop count has
    reached [maxHops] when it is zero. *)
Fixpoint follow (allowed : nat) (query : Query) (server : ServerAddress)
    (hops : nat) (visited : list (ServerAddress * list ascii)) (net : Net)
    : result ResolutionError RawResult * Net :=
  match exchange server (input query) net with
  | (Err _, net') => (Err (Transport hops server), net')
  | (Ok text, net') =>
      let visited' := visited ++ [(server, text)] in
      match referralHint (kind query) text with
      | None =>
          (Ok {| terminal := text; chain := visited'; stopped := Terminal |},
           net')
      | Some referred =>
          if inChain referred visited' then
            (Ok {| terminal := text; chain := visited'; stopped := Cycle |},
             net')
          else
            match allowed with
            | 0 =>
                (Ok {| terminal := text; chain := visited';
                       stopped := DepthExceeded |}, net')
            | S allowed' =>
                follow allowed' query referred (S hops) visited' net'
            end
      end
  end.

(** Modelled from the spec: the Referral Follower,
    [resolve(query, maxHops)]. *)
Definition resolve (query : Query) (maxHops : nat) (net : Net)
    : result ResolutionError RawResult * Net :=
  match resolveInitialServer (kind query) (input query) with
  | None => (Err NoServer, net)
  | Some server => follow maxHops query server 0 [] net
  end.

End Resolver.

Arguments Net : clear implicits.

(** ** Inputs of the concrete scenarios *)

(** A client that is offline: every query fails, nothing is sent. *)
Definition offlineClient : RDAPClient unit unit :=
  {| Whois := λ _ s, (Err (), s) |}.

(** The response for [egger.ru] of the domain scenario, one line each. *)
Definition eggerWhois : list ascii :=
  str "Domain Name: EGGER.RU" ++ LF ::
  str "Registrar: RU-CENTER-RU" ++ LF ::
  str "Created: 2001-02-19" ++ LF ::
  str "nserver: ns1.dns.millenniumarts.net." ++ [LF].

(** ** Reading the code's definitions

    The definitions of this part are not in [rdap.go]: they say in plain
    terms what its functions are shown to compute. *)

(** The words that a regular expression denotes. *)
Fixpoint lang (r : regex) (s : list ascii) : Prop :=
  match r with
  | Void => False
  | Eps => s = []
  | Cls p => ∃ c, s = [c] ∧ p c = true
  | Seq r1 r2 => ∃ s1 s2, s = s1 ++ s2 ∧ lang r1 s1 ∧ lang r2 s2
  | Alt r1 r2 => lang r1 s ∨ lang r2 s
  | Star r1 => ∃ ws, s = concat ws ∧ Forall (lang r1) ws
  end.

(** The pieces put together again, [strings.Join] for a one-byte separator. *)
Fixpoint Join (pieces : list (list ascii)) (sep : ascii) : list ascii :=
  match pieces with
  | [] => []
  | [p] => p
  | p :: rest => p ++ sep :: Join rest sep
  end.

(** One to three decimal digits. *)
Definition isGroup (g : list ascii) : bool :=
  (1 <=? length g) && (length g <=? 3) && forallb (inRange "0" "9") g.

(** Four groups of one to three decimal digits, separated by three dots. *)
Definition dottedQuadShape (q : list ascii) : bool :=
  match Split q "." with
  | [a; b; c; d] => isGroup a && isGroup b && isGroup c && isGroup d
  | _ => false
  end.

(** A non-empty string of hexadecimal digits and colons. *)
Definition hexColonShape (q : list ascii) : bool :=
  match q with
  | [] => false
  | _ :: _ =>
      forallb (λ c, inRange "0" "9" c || inRange "a" "f" c || inRange "A" "F" c
                    || Ascii.eqb c ":") q
  end.

(** The specification's dotted quad: four decimal groups separated by
    exactly three dots, each group in the range 0 to 255. *)
Definition decimalValue (g : list ascii) : N :=
  fold_left (λ n c, 10 * n + (N_of_ascii c - 48))%N g 0%N.

Definition isOctet (g : list ascii) : bool :=
  match g with
  | [] => false
  | _ :: _ => forallb (inRange "0" "9") g && (decimalValue g <=? 255)%N
  end.

Definition dottedQuad (q : list ascii) : bool :=
  match Split q "." with
  | [a; b; c; d] => isOctet a && isOctet b && isOctet c && isOctet d
  | _ => false
  end.

(** The string begins with a white-space rune. *)
Definition frontSpace (two : ascii → ascii → bool)
    (three : ascii → ascii → ascii → bool) (s : list ascii) : bool :=
  match s with
  | [] => false
  | c :: r =>
      asciiSpace c ||
      match r with
      | [] => false
      | d :: r' =>
          two c d || match r' with [] => false | e :: _ => three c d e end
      end
  end.

Definition leadingSpace (s : list ascii) : bool := frontSpace space2 space3 s.

(** The string ends with a white-space rune. *)
Definition trailingSpace (s : list ascii) : bool :=
  frontSpace (λ c d, space2 d c) (λ c d e, space3 e d c) (rev s).

(** The label and the value that a line of the response carries, if any. *)
Definition fieldOf (line : list ascii) : option (list ascii * list ascii) :=
  let t := TrimSpace line in
  if streq t [] || HasPrefix t (str "%") then None
  else match Cut t ":" with
       | Some (label, value) => Some (TrimSpace label, TrimSpace value)
       | None => None
       end.

(** The fields of a response, in the order of its lines. *)
Definition fieldsOf (whoisData : list ascii) : list (list ascii * list ascii) :=
  omap fieldOf (Split whoisData LF).

(** The label of a field, compared without regard to case. *)
Definition labelled (name : string) (kv : list ascii * list ascii) : bool :=
  streq (ToLower kv.1) (str name).

(** What a field adds to the collections of a domain response. *)
Definition nameserverOf (kv : list ascii * list ascii) : option RDAPNameserver :=
  if labelled "nserver" kv
  then Some {| NsObjectClassName := str "nameserver"; NsLdhName := kv.2 |}
  else None.

Definition statusOf (kv : list ascii * list ascii) : option (list ascii) :=
  if labelled "status" kv then Some kv.2 else None.

Definition entityOf (kv : list ascii * list ascii) : option RDAPEntity :=
  if labelled "registrar" kv
  then Some {| EntityObjectClassName := str "entity"; EntityHandle := kv.2;
               EntityRoles := [str "registrar"] |}
  else None.

Definition domainEventOf (kv : list ascii * list ascii) : option RDAPEvent :=
  if labelled "created" kv
  then Some {| EventAction := str "registration"; EventDate := kv.2 |}
  else if labelled "paid-till" kv || labelled "expires" kv
  then Some {| EventAction := str "expiration"; EventDate := kv.2 |}
  else if labelled "updated" kv
  then Some {| EventAction := str "last changed"; EventDate := kv.2 |}
  else None.

(** The value of a field if it bears the given label. *)
Definition valueFor (label : list ascii) (kv : list ascii * list ascii)
    : option (list ascii) :=
  if streq kv.1 label then Some kv.2 else None.

(** The value of the last field with the given label. *)
Definition lastValue (label : list ascii) (fs : list (list ascii * list ascii))
    : option (list ascii) :=
  last (omap (valueFor label) fs).

(** One field taken in: the map entry, then the parser's switch. *)
Definition takeField
    (fields : list ascii → list ascii → RDAPResponse → RDAPResponse)
    (r : RDAPResponse) (kv : list ascii * list ascii) : RDAPResponse :=
  fields kv.1 kv.2 (setParsed kv.1 kv.2 r).

(** What a run of the referral loop has asked, and of whom. *)
Definition asked (query : Query) (servers : list ServerAddress)
    : list (ServerAddress * list ascii) :=
  map (λ s, (s, input query)) servers.

(** The outcome of a run of the referral loop that started after [visited]:
    the servers asked, none of them twice, at most one more than the hops
    allowed; a result ends with the last of them and a transport failure
    names it. *)
Definition guarded {World : Type} (normalHost : list ascii → list ascii)
    (allowed : nat) (query : Query) (hops : nat)
    (visited : list (ServerAddress * list ascii)) (net net' : Net World)
    (res : result ResolutionError RawResult) : Prop :=
  ∃ servers,
    sent net' = sent net ++ asked query servers
    ∧ NoDup (map (λ hop, normalized normalHost hop.1) visited
             ++ map (normalized normalHost) servers)
    ∧ 1 ≤ length servers ≤ S allowed
    ∧ match res with
      | Ok raw =>
          map fst (chain raw) = map fst visited ++ servers
          ∧ ∃ last, chain raw !! (length visited + length servers - 1)
                    = Some (last, terminal raw)
      | Err (Transport h s) =>
          h + 1 = hops + length servers
          ∧ servers !! (length servers - 1) = Some s
      | Err _ => False
      end.

(** A small network for the referral scenarios: [a.example] refers to
    [b.example], [b.example] refers back to [a.example], [c.example] refers
    to itself, and every other server gives a response without a referral.
    A response is taken to name the server it refers to; host names are
    compared without regard to case. *)
Definition ringTransport (server : ServerAddress) (text : list ascii) (w : unit)
    : result TransportError (list ascii) * unit :=
  let h := ToLower (host server) in
  (Ok (if streq h (str "a.example") then str "b.example"
       else if streq h (str "b.example") then str "a.example"
       else if streq h (str "c.example") then str "c.example"
       else []), w).

Definition ringHint (k : QueryKind) (text : list ascii) : option ServerAddress :=
  match text with
  | [] => None
  | _ :: _ => Some {| host := text; port := None |}
  end.

Definition ringDirectory (k : QueryKind) (text : list ascii)
    : option ServerAddress :=
  Some {| host := str "a.example"; port := Some wellKnownPort |}.

Definition exampleQuery : Query :=
  {| input := str "example.org"; kind := Domain |}.

Definition quietNet : Net unit := {| world := (); sent := [] |}.

(** The fields that no parser writes: conformance list, notices, raw text
    and object class. *)
Definition header (r : RDAPResponse) :=
  (RdapConformance r, Notices r, RawWhois r, ObjectClassName r).

(** ** Further readings of the code *)

(** The fields of a response that only one branch of the conversion
    assigns, and the collections that only some parsers fill. *)
Definition domainNames (r : RDAPResponse) := (LdhName r, UnicodeName r).
Definition addresses (r : RDAPResponse) :=
  (StartAddress r, EndAddress r, IPVersion r).
Definition domainLists (r : RDAPResponse) :=
  (Entities r, Status r, Nameservers r).
Definition networkLists (r : RDAPResponse) := (Remarks r, Network r).

(** A hexadecimal digit. *)
Definition isHexDigit (c : ascii) : bool :=
  inRange "0" "9" c || inRange "a" "f" c || inRange "A" "F" c.

(** What a field adds to the response of an IP or ASN query. *)
Definition remarkOf (kv : list ascii * list ascii) : option RDAPRemark :=
  if labelled "descr" kv || labelled "description" kv
  then Some {| RemarkDescription := [kv.2] |}
  else None.

Definition registryEventOf (kv : list ascii * list ascii) : option RDAPEvent :=
  if labelled "created" kv
  then Some {| EventAction := str "registration"; EventDate := kv.2 |}
  else if labelled "last-modified" kv
  then Some {| EventAction := str "last changed"; EventDate := kv.2 |}
  else None.

Definition countryOf (kv : list ascii * list ascii) : option RDAPNetwork :=
  if labelled "country" kv
  then Some {| NetObjectClassName := str "ip network"; NetCountry := kv.2 |}
  else None.

(** The name that a field gives to a response, by the kind of the parser. *)
Definition domainNameOf (kv : list ascii * list ascii) : option (list ascii) :=
  if labelled "domain name" kv then Some kv.2 else None.

Definition networkNameOf (kv : list ascii * list ascii) : option (list ascii) :=
  if labelled "netname" kv || labelled "network name" kv then Some kv.2 else None.

Definition asNameOf (kv : list ascii * list ascii) : option (list ascii) :=
  if labelled "as-name" kv || labelled "aut-num" kv then Some kv.2 else None.

(** The last item that the fields give, or [before] when they give none. *)
Definition lastItem {A : Type} (item : list ascii * list ascii → option A)
    (fs : list (list ascii * list ascii)) (before : A) : A :=
  default before (last (omap item fs)).

(** The carriage return. *)
Definition CR : ascii := byte 13.

(** The lines put into one text, each followed by the given line end. *)
Definition withLineEnd (lineEnd : list ascii) (lines : list (list ascii))
    : list ascii :=
  concat (map (λ l, l ++ lineEnd) lines).

(** A byte of the ASCII range. *)
Definition isASCII (c : ascii) : bool := (N_of_ascii c <? 128)%N.


(** * Properties *)

(** ** What the parsers leave alone *)

Section Frame.

Context {A : Type} (proj : RDAPResponse → A).
Variable fields : list ascii → list ascii → RDAPResponse → RDAPResponse.
Hypothesis fields_keep : ∀ k v r, proj (fields k v r) = proj r.
Hypothesis parsed_keep : ∀ k v r, proj (setParsed k v r) = proj r.

Lemma parseLine_keeps r line : proj (parseLine fields r line) = proj r.
Proof.
  unfold parseLine.
  destruct (streq _ _ || HasPrefix _ _); [reflexivity|].
  destruct (SplitN _ _ _) as [|p0 [|p1 [|? ?]]]; try reflexivity.
  by rewrite fields_keep, parsed_keep.
Qed.

Lemma parseLines_keeps r raw : proj (parseLines fields r raw) = proj r.
Proof.
  unfold parseLines. revert r.
  induction (Split raw LF) as [|line lines IH]; intros r; simpl; [reflexivity|].
  by rewrite IH, parseLine_keeps.
Qed.

End Frame.

Ltac fields_cases :=
  intros; cbv beta delta [domainFields ipFields asnFields] zeta;
  repeat match goal with
         | |- context [if ?b then _ else _] => destruct b
         end; reflexivity.

Lemma domainFields_header k v r :
  (RdapConformance (domainFields k v r), Notices (domainFields k v r),
   RawWhois (domainFields k v r), ObjectClassName (domainFields k v r),
   WhoisParsed (domainFields k v r))
  = (RdapConformance r, Notices r, RawWhois r, ObjectClassName r, WhoisParsed r).
Proof. fields_cases. Qed.

Lemma ipFields_header k v r :
  (RdapConformance (ipFields k v r), Notices (ipFields k v r),
   RawWhois (ipFields k v r), ObjectClassName (ipFields k v r),
   WhoisParsed (ipFields k v r))
  = (RdapConformance r, Notices r, RawWhois r, ObjectClassName r, WhoisParsed r).
Proof. fields_cases. Qed.

Lemma asnFields_header k v r :
  (RdapConformance (asnFields k v r), Notices (asnFields k v r),
   RawWhois (asnFields k v r), ObjectClassName (asnFields k v r),
   Autnum (asnFields k v r), WhoisParsed (asnFields k v r))
  = (RdapConformance r, Notices r, RawWhois r, ObjectClassName r, Autnum r,
     WhoisParsed r).
Proof. fields_cases. Qed.

Lemma parseLines_header fields r raw :
  (∀ k v r', header (fields k v r') = header r') →
  header (parseLines fields r raw) = header r.
Proof. intros H. by apply (parseLines_keeps header). Qed.

Lemma domain_header k v r : header (domainFields k v r) = header r.
Proof. pose proof (domainFields_header k v r). unfold header. congruence. Qed.

Lemma ip_header k v r : header (ipFields k v r) = header r.
Proof. pose proof (ipFields_header k v r). unfold header. congruence. Qed.

Lemma asn_header k v r : header (asnFields k v r) = header r.
Proof. pose proof (asnFields_header k v r). unfold header. congruence. Qed.

Lemma asn_autnum k v r : Autnum (asnFields k v r) = Autnum r.
Proof. pose proof (asnFields_header k v r). congruence. Qed.

(** The response before the notice is attached, by the branch taken. *)
Lemma convert_header {S E} (rc : RDAPClient S E) query raw :
  ∃ r, convertWhoisToRDAP rc query raw = Ok (appendNotice termsOfService r)
       ∧ header r = ([str "rdap_level_0"], [], raw, objectClass (classify query)).
Proof.
  unfold convertWhoisToRDAP, classify. eexists. split; [reflexivity|].
  destruct (isDomain query).
  { unfold parseDomainWhois.
    rewrite (parseLines_header _ _ _ domain_header). reflexivity. }
  destruct (isIP query).
  { unfold parseIPWhois.
    rewrite (parseLines_header _ _ _ ip_header). unfold getIPVersion.
    by destruct (Contains query (str ":")). }
  destruct (isASN query).
  { unfold parseASNWhois.
    rewrite (parseLines_header _ _ _ asn_header). reflexivity. }
  reflexivity.
Qed.


(** C10: a query that is neither a domain nor an IP nor an ASN still gets a
    response and no error; its object class is the empty string and its
    catch-all map is empty, while the conformance list, the single notice
    and the raw text are attached. *)
Theorem unknown_query_response {S E} (rc : RDAPClient S E)
    (query raw : list ascii) :
  isDomain query = false → isIP query = false → isASN query = false →
  ∃ r, convertWhoisToRDAP rc query raw = Ok r
       ∧ ObjectClassName r = []
       ∧ WhoisParsed r = ∅
       ∧ RdapConformance r = [str "rdap_level_0"]
       ∧ Notices r = [termsOfService]
       ∧ RawWhois r = raw.
Proof.
  intros Hd Hi Ha. unfold convertWhoisToRDAP. rewrite Hd, Hi, Ha.
  eexists. split; [reflexivity|]. simpl. auto.
Qed.

Lemma unknown_query_response_witness :
  isDomain (str "hello") = false ∧ isIP (str "hello") = false
  ∧ isASN (str "hello") = false
  ∧ ∃ r, convertWhoisToRDAP offlineClient (str "hello") (str "name: value") = Ok r
         ∧ ObjectClassName r = []
         ∧ WhoisParsed r = ∅
         ∧ RdapConformance r = [str "rdap_level_0"]
         ∧ Notices r = [termsOfService]
         ∧ RawWhois r = str "name: value".
Proof.
  split; [reflexivity|]. split; [reflexivity|]. split; [reflexivity|].
  apply (unknown_query_response offlineClient (str "hello") (str "name: value"));
    reflexivity.
Defined.

(** C4: the domain scenario.  For the query [egger.ru] and the response
    with the four lines of the scenario the result has object class
    [domain], [EGGER.RU] in the catch-all map under [Domain Name], one
    entity, the registrar [RU-CENTER-RU], one event, the registration of
    [2001-02-19], and one name server, [ns1.dns.millenniumarts.net.]. *)
Theorem egger_scenario {S E} (rc : RDAPClient S E) :
  ∃ r, convertWhoisToRDAP rc (str "egger.ru") eggerWhois = Ok r
       ∧ classify (str "egger.ru") = Domain
       ∧ ObjectClassName r = str "domain"
       ∧ WhoisParsed r !! str "Domain Name" = Some (str "EGGER.RU")
       ∧ Entities r = [ {| EntityObjectClassName := str "entity";
                           EntityHandle := str "RU-CENTER-RU";
                           EntityRoles := [str "registrar"] |} ]
       ∧ Events r = [ {| EventAction := str "registration";
                         EventDate := str "2001-02-19" |} ]
       ∧ Nameservers r = [ {| NsObjectClassName := str "nameserver";
                              NsLdhName := str "ns1.dns.millenniumarts.net." |} ].
Proof.
  eexists. split; [reflexivity|]. vm_compute. repeat split.
Qed.

(** C1, as the code has it: [AS15169] is neither a domain nor an IP, it is
    an ASN, and its response has object class [autnum] with the query
    itself, as it was written, in the field [autnum]; [15169] passes the ASN
    check and is no domain; and every query of the ASN kind gets object class
    [autnum] and is copied as it is into the field [autnum]. *)
Theorem asn_scenario {S E} (rc : RDAPClient S E) (raw : list ascii) :
  isDomain (str "AS15169") = false
  ∧ isIP (str "AS15169") = false
  ∧ classify (str "AS15169") = ASN
  ∧ isASN (str "15169") = true
  ∧ isDomain (str "15169") = false
  ∧ (∃ r, convertWhoisToRDAP rc (str "AS15169") raw = Ok r
          ∧ ObjectClassName r = str "autnum"
          ∧ Autnum r = str "AS15169")
  ∧ (∀ query, classify query = ASN →
       ∃ r, convertWhoisToRDAP rc query raw = Ok r
            ∧ ObjectClassName r = str "autnum"
            ∧ Autnum r = query).
Proof.
  do 5 (split; [reflexivity|]).
  assert (Hasn : ∀ query, classify query = ASN →
            ∃ r, convertWhoisToRDAP rc query raw = Ok r
                 ∧ ObjectClassName r = str "autnum" ∧ Autnum r = query).
  { intros query Hk. unfold classify in Hk. unfold convertWhoisToRDAP.
    destruct (isDomain query); [discriminate|].
    destruct (isIP query).
    { by destruct (streq (getIPVersion query) (str "v6")). }
    destruct (isASN query); [|discriminate].
    eexists. split; [reflexivity|]. unfold parseASNWhois. split.
    - change (ObjectClassName (appendNotice termsOfService ?r))
        with (header r).2.
      by rewrite (parseLines_header _ _ _ asn_header).
    - change (Autnum (appendNotice termsOfService ?r)) with (Autnum r).
      by rewrite (parseLines_keeps Autnum asnFields asn_autnum). }
  split; [|exact Hasn]. by apply Hasn.
Qed.

Lemma asn_scenario_witness :
  classify (str "as15169") = ASN
  ∧ ∃ r, convertWhoisToRDAP offlineClient (str "as15169") (str "as-name: GOOGLE")
         = Ok r
         ∧ ObjectClassName r = str "autnum"
         ∧ Autnum r = str "as15169".
Proof.
  split; [reflexivity|].
  apply (proj2 (proj2 (proj2 (proj2 (proj2 (proj2
           (asn_scenario offlineClient (str "as-name: GOOGLE")))))))).
  reflexivity.
Defined.

(** C1 fails for [15169]: the query is classified as an IP, and its response
    has object class [ip network] and an empty field [autnum]. *)
Lemma asn_scenario_bare_number :
  (classify (str "15169") = IPv4
   ∧ ∃ r, convertWhoisToRDAP offlineClient (str "15169") [] = Ok r
          ∧ ObjectClassName r = str "ip network"
          ∧ StartAddress r = str "15169"
          ∧ Autnum r = [])
  ∧ ¬ (classify (str "15169") = ASN
       ∧ classify (str "AS15169") = ASN
       ∧ ∀ r1 r2,
           convertWhoisToRDAP offlineClient (str "15169") [] = Ok r1 →
           convertWhoisToRDAP offlineClient (str "AS15169") [] = Ok r2 →
           ObjectClassName r1 = str "autnum"
           ∧ ObjectClassName r2 = str "autnum"
           ∧ Autnum r1 = Autnum r2).
Proof.
  split.
  - split; [reflexivity|]. eexists. split; [reflexivity|]. vm_compute. auto.
  - intros [H _]. vm_compute in H. discriminate H.
Qed.

(** ** The regular expression matcher *)

Lemma nullable_lang r : nullable r = true ↔ lang r [].
Proof.
  induction r as [| |p|r1 IH1 r2 IH2|r1 IH1 r2 IH2|r1 IH1]; simpl.
  - split; [discriminate|tauto].
  - tauto.
  - split; [discriminate|]. intros (c & H & _). discriminate H.
  - rewrite andb_true_iff, IH1, IH2. split.
    + intros [H1 H2]. by exists [], [].
    + intros (s1 & s2 & H & H1 & H2). symmetry in H.
      apply app_eq_nil in H as [-> ->]. tauto.
  - rewrite orb_true_iff, IH1, IH2. tauto.
  - split; [|tauto]. intros _. exists []. split; [reflexivity|constructor].
Qed.

Lemma star_cons r c s :
  lang (Star r) (c :: s) ↔
  ∃ s1 s2, s = s1 ++ s2 ∧ lang r (c :: s1) ∧ lang (Star r) s2.
Proof.
  simpl. split.
  - intros (ws & Hs & Hws). induction Hws as [|w ws Hw Hws IH]; [discriminate|].
    destruct w as [|c' w]; simpl in Hs; [by apply IH|].
    injection Hs as -> ->. exists w, (concat ws). eauto.
  - intros (s1 & s2 & -> & H1 & ws & -> & Hws).
    exists ((c :: s1) :: ws). split; [reflexivity|by constructor].
Qed.

Lemma deriv_lang c r : ∀ s, lang (deriv c r) s ↔ lang r (c :: s).
Proof.
  induction r as [| |p|r1 IH1 r2 IH2|r1 IH1 r2 IH2|r1 IH1]; intros s.
  - simpl. tauto.
  - simpl. split; [tauto|discriminate].
  - simpl. destruct (p c) eqn:Hp; simpl.
    + split; [intros ->; eauto|]. intros (c' & H & _). by injection H.
    + split; [tauto|]. intros (c' & H & Hc). injection H as -> ->. congruence.
  - assert (Hseq : lang (Seq (deriv c r1) r2) s ↔
        ∃ s1 s2, c :: s = (c :: s1) ++ s2 ∧ lang r1 (c :: s1) ∧ lang r2 s2).
    { simpl. split; intros (s1 & s2 & H & H1 & H2); exists s1, s2;
        (split; [congruence|]); split; try done; by apply IH1. }
    change (lang (Seq r1 r2) (c :: s)) with
      (∃ s1 s2, c :: s = s1 ++ s2 ∧ lang r1 s1 ∧ lang r2 s2).
    simpl deriv. destruct (nullable r1) eqn:Hn.
    + change (lang (Alt ?a ?b) s) with (lang a s ∨ lang b s).
      rewrite Hseq, IH2. split.
      * intros [(s1 & s2 & H & H1 & H2)|H]; [eauto|].
        exists [], (c :: s). split; [reflexivity|]. split; [|done].
        by apply nullable_lang.
      * intros (s1 & s2 & H & H1 & H2). destruct s1 as [|c' s1].
        { simpl in H. subst s2. by right. }
        injection H as <- ->. left. eauto.
    + rewrite Hseq. split.
      * intros (s1 & s2 & H & H1 & H2). eauto.
      * intros (s1 & s2 & H & H1 & H2). destruct s1 as [|c' s1].
        { apply nullable_lang in H1. congruence. }
        injection H as <- ->. eauto.
  - simpl. rewrite IH1, IH2. tauto.
  - rewrite star_cons. simpl deriv.
    change (lang (Seq ?a ?b) s) with (∃ s1 s2, s = s1 ++ s2 ∧ lang a s1 ∧ lang b s2).
    split; intros (s1 & s2 & H & H1 & H2); exists s1, s2;
      (split; [done|]); split; try done; by apply IH1.
Qed.

Lemma fullMatch_lang s : ∀ r, fullMatch r s = true ↔ lang r s.
Proof.
  induction s as [|c s IH]; intros r; simpl.
  - apply nullable_lang.
  - rewrite IH. apply deriv_lang.
Qed.

(** ** Splitting at a separator *)

Lemma Cut_app a sep rest :
  sep ∉ a → Cut (a ++ sep :: rest) sep = Some (a, rest).
Proof.
  induction a as [|c a IH]; intros Hn; simpl.
  - by rewrite Ascii.eqb_refl.
  - apply not_elem_of_cons in Hn as [Hc Ha].
    destruct (Ascii.eqb c sep) eqn:Heq.
    { apply Ascii.eqb_eq in Heq. congruence. }
    by rewrite (IH Ha).
Qed.

Lemma Cut_None s sep : sep ∉ s → Cut s sep = None.
Proof.
  induction s as [|c s IH]; intros Hn; simpl; [done|].
  apply not_elem_of_cons in Hn as [Hc Hs].
  destruct (Ascii.eqb c sep) eqn:Heq.
  { apply Ascii.eqb_eq in Heq. congruence. }
  by rewrite (IH Hs).
Qed.

Lemma Cut_Some s sep a b :
  Cut s sep = Some (a, b) → s = a ++ sep :: b ∧ sep ∉ a.
Proof.
  revert a. induction s as [|c s IH]; intros a; simpl; [discriminate|].
  destruct (Ascii.eqb c sep) eqn:Heq.
  - apply Ascii.eqb_eq in Heq as ->. intros [= <- <-]. split; [done|].
    apply not_elem_of_nil.
  - destruct (Cut s sep) as [[a' b']|]; [|discriminate].
    intros [= <- <-]. destruct (IH a' eq_refl) as [-> Hn]. split; [done|].
    apply not_elem_of_cons. split; [|done].
    intros ->. by rewrite Ascii.eqb_refl in Heq.
Qed.

Lemma Cut_is_None s sep : Cut s sep = None → sep ∉ s.
Proof.
  induction s as [|c s IH]; simpl; [intros _; apply not_elem_of_nil|].
  destruct (Ascii.eqb c sep) eqn:Heq; [discriminate|].
  destruct (Cut s sep) as [[a' b']|]; [discriminate|]. intros _.
  apply not_elem_of_cons. split; [|by apply IH].
  intros ->. by rewrite Ascii.eqb_refl in Heq.
Qed.

Lemma Count_none s sep : sep ∉ s → Count s sep = 0.
Proof.
  unfold Count. induction s as [|c s IH]; intros Hn; [done|].
  apply not_elem_of_cons in Hn as [Hc Hs].
  rewrite filter_cons_False by congruence. by apply IH.
Qed.

Lemma Count_app a sep rest :
  sep ∉ a → Count (a ++ sep :: rest) sep = S (Count rest sep).
Proof.
  intros Hn. pose proof (Count_none a sep Hn) as H0. unfold Count in *.
  rewrite filter_app, length_app, H0, filter_cons_True by done. done.
Qed.

Lemma Split_whole s sep : sep ∉ s → Split s sep = [s].
Proof. intros Hn. unfold Split. by rewrite Count_none. Qed.

Lemma Split_app a sep rest :
  sep ∉ a → Split (a ++ sep :: rest) sep = a :: Split rest sep.
Proof.
  intros Hn. unfold Split. rewrite Count_app by done.
  change (splitLoop ?s sep (S (S ?n))) with
    (match Cut s sep with
     | None => [s]
     | Some (before, after) => before :: splitLoop after sep (S n)
     end).
  by rewrite Cut_app.
Qed.

Lemma splitLoop_Join sep n : ∀ s, Join (splitLoop s sep (S n)) sep = s.
Proof.
  induction n as [|n IH]; intros s; [done|].
  change (splitLoop s sep (S (S n))) with
    (match Cut s sep with
     | None => [s]
     | Some (before, after) => before :: splitLoop after sep (S n)
     end).
  destruct (Cut s sep) as [[a b]|] eqn:Hc; [|done].
  apply Cut_Some in Hc as [-> _].
  specialize (IH b). destruct (splitLoop b sep (S n)) as [|p ps] eqn:Hl.
  { destruct n; simpl in Hl; [discriminate|]. destruct (Cut b sep) as [[? ?]|]; discriminate. }
  change (Join (a :: p :: ps) sep) with (a ++ sep :: Join (p :: ps) sep).
  by rewrite IH.
Qed.

Lemma Split_Join s sep : Join (Split s sep) sep = s.
Proof. apply splitLoop_Join. Qed.

(** ** The shape of an IP query *)

Lemma lang_digits13 g : lang (Rep digit 1 3) g ↔ isGroup g = true.
Proof.
  unfold isGroup. split.
  - simpl. intros (s1 & s2 & -> & (t1 & t2 & -> & (a & -> & Ha) & ->) & H).
    destruct H as [->|(u1 & u2 & -> & (b & -> & Hb) & H)]; simpl.
    { by rewrite Ha. }
    destruct H as [->|(v1 & v2 & -> & (c & -> & Hc) & ->)]; simpl.
    { by rewrite Ha, Hb. }
    by rewrite Ha, Hb, Hc.
  - intros H. apply andb_true_iff in H as [H Hd].
    apply andb_true_iff in H as [H1 H3].
    apply Nat.leb_le in H1, H3.
    destruct g as [|a [|b [|c [|d g]]]]; simpl in *; try lia.
    + apply andb_true_iff in Hd as [Ha _].
      exists [a], []. split; [done|]. split; [|by left].
      exists [a], []. eauto.
    + apply andb_true_iff in Hd as [Ha Hd]. apply andb_true_iff in Hd as [Hb _].
      exists [a], [b]. split; [done|]. split; [exists [a], []; eauto|].
      right. exists [b], []. split; [done|]. split; [eauto|by left].
    + apply andb_true_iff in Hd as [Ha Hd]. apply andb_true_iff in Hd as [Hb Hd].
      apply andb_true_iff in Hd as [Hc _].
      exists [a], [b; c]. split; [done|]. split; [exists [a], []; eauto|].
      right. exists [b], [c]. split; [done|]. split; [eauto|].
      right. exists [c], []. eauto.
Qed.

Lemma lang_quad_sep G p q :
  lang (Seq (Rep (Seq G (Cls p)) 3 3) G) q ↔
  ∃ a x b y c z d, q = a ++ x :: b ++ y :: c ++ z :: d
             ∧ p x = true ∧ p y = true ∧ p z = true
             ∧ lang G a ∧ lang G b ∧ lang G c ∧ lang G d.
Proof.
  simpl. split.
  - intros (s1 & d & -> & (s2 & s3 & -> & H & ->) & Hd).
    destruct H as (ad & s4 & -> & (a & dot1 & -> & Ha & (x & -> & Hx)) & H).
    destruct H as (bd & s5 & -> & (b & dot2 & -> & Hb & (y & -> & Hy)) & H).
    destruct H as (cd & s6 & -> & (c & dot3 & -> & Hc & (z & -> & Hz)) & ->).
    exists a, x, b, y, c, z, d. split; [|done].
    rewrite ?app_nil_r, <- ?app_assoc. simpl. by rewrite <- ?app_assoc.
  - intros (a & x & b & y & c & z & d & -> & Hx & Hy & Hz & Ha & Hb & Hc & Hd).
    exists ((a ++ [x]) ++ (b ++ [y]) ++ (c ++ [z]) ++ []), d.
    split. { rewrite ?app_nil_r, <- ?app_assoc. simpl. by rewrite <- ?app_assoc. }
    split; [|done].
    eexists _, []. split; [symmetry; apply app_nil_r|]. split; [|done].
    eexists _, _. split; [done|]. split.
    { exists a, [x]. split; [done|]. split; [done|]. by exists x. }
    eexists _, _. split; [done|]. split.
    { exists b, [y]. split; [done|]. split; [done|]. by exists y. }
    eexists _, _. split; [done|]. split; [|done].
    exists c, [z]. split; [done|]. split; [done|]. by exists z.
Qed.

Lemma lang_quad G q :
  lang (Seq (Rep (Seq G (Cls (Ascii.eqb "."))) 3 3) G) q ↔
  ∃ a b c d, q = a ++ "."%char :: b ++ "."%char :: c ++ "."%char :: d
             ∧ lang G a ∧ lang G b ∧ lang G c ∧ lang G d.
Proof.
  rewrite lang_quad_sep. split.
  - intros (a & x & b & y & c & z & d & -> & Hx & Hy & Hz & H).
    apply Ascii.eqb_eq in Hx as <-, Hy as <-, Hz as <-. by exists a, b, c, d.
  - intros (a & b & c & d & -> & H).
    exists a, "."%char, b, "."%char, c, "."%char, d. by rewrite Ascii.eqb_refl.
Qed.

Lemma lang_plus_cls p s :
  lang (Plus (Cls p)) s ↔ s ≠ [] ∧ forallb p s = true.
Proof.
  simpl. split.
  - intros (s1 & s2 & -> & (c & -> & Hc) & ws & -> & Hws). split; [done|].
    simpl. rewrite Hc. simpl. induction Hws as [|w ws (d & -> & Hd) _ IH]; [done|].
    simpl. by rewrite Hd.
  - intros [Hne Hall]. destruct s as [|c s]; [done|]. simpl in Hall.
    apply andb_true_iff in Hall as [Hc Hs].
    exists [c], s. split; [done|]. split; [eauto|].
    clear Hne Hc. induction s as [|d s IH].
    + exists []. split; [done|constructor].
    + simpl in Hs. apply andb_true_iff in Hs as [Hd Hs].
      destruct (IH Hs) as (ws & -> & Hws).
      exists ([d] :: ws). split; [done|]. constructor; [eauto|done].
Qed.

Lemma isGroup_no_dot g : isGroup g = true → "."%char ∉ g.
Proof.
  unfold isGroup. intros H. apply andb_true_iff in H as [_ H].
  intros Hin. rewrite forallb_forall in H.
  apply list_elem_of_In in Hin. by apply H in Hin.
Qed.

Lemma lang_quad_shape q :
  lang (Seq (Rep (Seq (Rep digit 1 3) (Cls (Ascii.eqb "."))) 3 3) (Rep digit 1 3)) q
  ↔ dottedQuadShape q = true.
Proof.
  rewrite lang_quad. unfold dottedQuadShape. split.
  - intros (a & b & c & d & -> & Ha & Hb & Hc & Hd).
    apply lang_digits13 in Ha, Hb, Hc, Hd.
    rewrite !Split_app, Split_whole by by apply isGroup_no_dot.
    by rewrite Ha, Hb, Hc, Hd.
  - intros H. pose proof (Split_Join q ".") as Hj.
    destruct (Split q ".") as [|a [|b [|c [|d [|? ?]]]]]; try discriminate.
    apply andb_true_iff in H as [H Hd]. apply andb_true_iff in H as [H Hc].
    apply andb_true_iff in H as [Ha Hb].
    exists a, b, c, d. rewrite !lang_digits13. simpl in Hj. done.
Qed.

(** What [isIP] accepts. *)
Lemma isIP_shape q :
  isIP q = true ↔ dottedQuadShape q = true ∨ hexColonShape q = true.
Proof.
  unfold isIP, MatchString. rewrite fullMatch_lang.
  change (lang ipRegex q) with
    (lang (Seq (Rep (Seq (Rep digit 1 3) (Cls (Ascii.eqb "."))) 3 3) (Rep digit 1 3)) q
     ∨ lang (Plus hexOrColon) q).
  rewrite lang_quad_shape. unfold hexOrColon. rewrite lang_plus_cls.
  unfold hexColonShape. destruct q as [|c q].
  - split; (intros [?|H]; [by left|]); [by destruct H|discriminate].
  - split; (intros [?|H]; [by left|right]); [by destruct H|by split].
Qed.

Lemma HasPrefix_one s c : HasPrefix s [c] = true ↔ ∃ r, s = c :: r.
Proof.
  destruct s as [|d s]; cbn [HasPrefix].
  - split; [discriminate|]. by intros [? ?].
  - rewrite andb_true_r, Ascii.eqb_eq. split; [intros ->; eauto|].
    by intros [r [= -> _]].
Qed.

Lemma Contains_one s c : Contains s [c] = true ↔ c ∈ s.
Proof.
  induction s as [|d s IH].
  - simpl. split; [discriminate|]. intros H. by apply elem_of_nil in H.
  - change (Contains (d :: s) [c]) with (HasPrefix (d :: s) [c] || Contains s [c]).
    rewrite orb_true_iff, IH, HasPrefix_one, elem_of_cons. split.
    + intros [[r [= -> _]]|H]; auto.
    + intros [->|H]; eauto.
Qed.

Lemma dottedQuadShape_bytes q :
  dottedQuadShape q = true →
  ∀ c, c ∈ q → inRange "0" "9" c = true ∨ c = "."%char.
Proof.
  intros H. apply lang_quad_shape, lang_quad in H
    as (a & b & c & d & -> & Ha & Hb & Hc & Hd).
  apply lang_digits13 in Ha, Hb, Hc, Hd.
  assert (Hg : ∀ g x, isGroup g = true → x ∈ g → inRange "0" "9" x = true).
  { intros g x Hgr Hx. unfold isGroup in Hgr. apply andb_true_iff in Hgr as [_ Hgr].
    rewrite forallb_forall in Hgr. apply Hgr. by apply list_elem_of_In. }
  intros x Hx.
  repeat (apply elem_of_app in Hx as [Hx|Hx]; [left; eauto|];
          apply elem_of_cons in Hx as [->|Hx]; [by right|]).
  left; eauto.
Qed.

(** C3, as the code has it: the IP check looks at the shape only.  Every
    query made of four groups of one to three decimal digits with three dots
    between them is classified as IPv4, whatever the values of the groups;
    and a query containing a dot is classified as IPv4 only if it has that
    shape. *)
Theorem ipv4_by_shape (query : list ascii) :
  (dottedQuadShape query = true → classify query = IPv4)
  ∧ (Contains query (str ".") = true → classify query = IPv4 →
     dottedQuadShape query = true).
Proof.
  unfold classify, isDomain, getIPVersion. split.
  - intros H. assert (Hip : isIP query = true) by (apply isIP_shape; auto).
    rewrite Hip, andb_false_r.
    destruct (Contains query (str ":")) eqn:Hc; [|done].
    apply (Contains_one query ":") in Hc.
    by destruct (dottedQuadShape_bytes _ H _ Hc).
  - intros Hdot. rewrite Hdot. simpl.
    destruct (isIP query) eqn:Hip; simpl; [|by destruct (isASN query)].
    intros _. apply isIP_shape in Hip as [H|H]; [done|].
    apply (Contains_one query ".") in Hdot. unfold hexColonShape in H.
    destruct query as [|c q]; [done|]. rewrite forallb_forall in H.
    apply list_elem_of_In, H in Hdot. done.
Qed.

Lemma ipv4_by_shape_witness :
  dottedQuadShape (str "8.8.8.8") = true
  ∧ Contains (str "8.8.8.8") (str ".") = true
  ∧ classify (str "8.8.8.8") = IPv4.
Proof.
  split; [reflexivity|]. split; [reflexivity|].
  exact (proj1 (ipv4_by_shape (str "8.8.8.8")) eq_refl).
Defined.

(** C3 fails for a group above 255: [999.999.999.999] is no dotted quad of
    the specification, and still it passes the IP check and is classified as
    IPv4. *)
Lemma ipv4_group_above_255 :
  dottedQuad (str "999.999.999.999") = false
  ∧ isIP (str "999.999.999.999") = true
  ∧ classify (str "999.999.999.999") = IPv4
  ∧ ¬ (classify (str "999.999.999.999") = IPv4
       ↔ dottedQuad (str "999.999.999.999") = true).
Proof.
  split; [reflexivity|]. split; [reflexivity|]. split; [reflexivity|].
  intros [H _]. specialize (H eq_refl). vm_compute in H. discriminate H.
Qed.

(** ** Trimming *)

Section Trim.

Variable two : ascii → ascii → bool.
Variable three : ascii → ascii → ascii → bool.

Lemma trimFront_ind (P : list ascii → Prop) :
  (∀ s, frontSpace two three s = false → P s) →
  (∀ c r, asciiSpace c = true → P r → P (c :: r)) →
  (∀ c d r, asciiSpace c = false → two c d = true → P r → P (c :: d :: r)) →
  (∀ c d e r, asciiSpace c = false → two c d = false → three c d e = true →
              P r → P (c :: d :: e :: r)) →
  ∀ s, P s.
Proof.
  intros Hclean H1 H2 H3 s.
  remember (length s) as n eqn:Hn. revert s Hn.
  induction n as [n IHn] using lt_wf_ind. intros s ->.
  assert (IH : ∀ t, length t < length s → P t) by (intros t Ht; by eapply IHn).
  clear IHn.
  destruct s as [|c r]; [by apply Hclean|].
  destruct (asciiSpace c) eqn:Hc.
  { apply H1; [done|]. apply IH. simpl. lia. }
  destruct r as [|d r]; [by apply Hclean; simpl; rewrite Hc|].
  destruct (two c d) eqn:Hd.
  { apply H2; [done..|]. apply IH. simpl. lia. }
  destruct r as [|e r]; [by apply Hclean; simpl; rewrite Hc, Hd|].
  destruct (three c d e) eqn:He.
  { apply H3; [done..|]. apply IH. simpl. lia. }
  apply Hclean. simpl. by rewrite Hc, Hd, He.
Qed.

Lemma trimFront_clean s :
  frontSpace two three s = false → trimFront two three s = s.
Proof.
  destruct s as [|c [|d [|e r]]]; simpl; [done|..].
  - by destruct (asciiSpace c).
  - destruct (asciiSpace c); [done|]. by destruct (two c d).
  - destruct (asciiSpace c); [done|]. destruct (two c d); [done|].
    by destruct (three c d e).
Qed.

Lemma trimFront_one c r :
  asciiSpace c = true → trimFront two three (c :: r) = trimFront two three r.
Proof. intros H. simpl. by rewrite H. Qed.

Lemma trimFront_two c d r :
  asciiSpace c = false → two c d = true →
  trimFront two three (c :: d :: r) = trimFront two three r.
Proof. intros H1 H2. simpl. by rewrite H1, H2. Qed.

Lemma trimFront_three c d e r :
  asciiSpace c = false → two c d = false → three c d e = true →
  trimFront two three (c :: d :: e :: r) = trimFront two three r.
Proof. intros H1 H2 H3. simpl. by rewrite H1, H2, H3. Qed.

(** Nothing white is left at the front. *)
Lemma trimFront_frontSpace s :
  frontSpace two three (trimFront two three s) = false.
Proof.
  induction s as [s H|c r H IH|c d r H1 H2 IH|c d e r H1 H2 H3 IH]
    using trimFront_ind.
  - by rewrite trimFront_clean.
  - by rewrite trimFront_one.
  - by rewrite trimFront_two.
  - by rewrite trimFront_three.
Qed.

(** What is left is the rest of the string. *)
Lemma trimFront_suffix s : ∃ w, s = w ++ trimFront two three s.
Proof.
  induction s as [s H|c r H IH|c d r H1 H2 IH|c d e r H1 H2 H3 IH]
    using trimFront_ind.
  - exists []. by rewrite trimFront_clean.
  - destruct IH as [w Hw]. exists (c :: w). rewrite trimFront_one by done.
    simpl. congruence.
  - destruct IH as [w Hw]. exists (c :: d :: w). rewrite trimFront_two by done.
    simpl. congruence.
  - destruct IH as [w Hw]. exists (c :: d :: e :: w).
    rewrite trimFront_three by done. simpl. congruence.
Qed.

Lemma frontSpace_app s w :
  frontSpace two three s = true → frontSpace two three (s ++ w) = true.
Proof.
  destruct s as [|c [|d [|e r]]]; simpl; try done.
  - rewrite orb_false_r. by intros ->.
  - rewrite orb_false_r. intros H. apply orb_true_iff in H as [-> | ->]; [done|].
    by rewrite orb_true_r.
Qed.

End Trim.

Lemma trimRight_prefix s : ∃ w, s = trimRight s ++ w.
Proof.
  unfold trimRight, trimRev.
  destruct (trimFront_suffix (λ c d, space2 d c) (λ c d e, space3 e d c) (rev s))
    as [w Hw].
  exists (rev w). rewrite <- rev_app_distr, <- Hw. by rewrite rev_involutive.
Qed.

(** No white space is left around a trimmed string. *)
Lemma TrimSpace_trimmed s :
  leadingSpace (TrimSpace s) = false ∧ trailingSpace (TrimSpace s) = false.
Proof.
  unfold TrimSpace. split.
  - destruct (trimRight_prefix (trimLeft s)) as [w Hw].
    destruct (leadingSpace (trimRight (trimLeft s))) eqn:Hl; [|done].
    apply (frontSpace_app _ _ _ w) in Hl. rewrite <- Hw in Hl.
    unfold trimLeft in Hl. by rewrite trimFront_frontSpace in Hl.
  - unfold trailingSpace, trimRight, trimRev. rewrite rev_involutive.
    apply trimFront_frontSpace.
Qed.

(** ** The loop body *)

Lemma streq_true s t : streq s t = true ↔ s = t.
Proof. unfold streq. apply bool_decide_eq_true. Qed.

Lemma streq_false s t : streq s t = false ↔ s ≠ t.
Proof. unfold streq. apply bool_decide_eq_false. Qed.

Lemma SplitN_two s sep :
  s ≠ [] →
  SplitN s sep 2 = match Cut s sep with
                   | Some (before, after) => [before; after]
                   | None => [s]
                   end.
Proof.
  intros Hs. unfold SplitN. destruct s as [|c s]; [done|].
  replace (Nat.min 2 (S (length (c :: s)))) with 2 by (simpl; lia).
  change (splitLoop ?x sep 2) with
    (match Cut x sep with
     | None => [x]
     | Some (before, after) => before :: splitLoop after sep 1
     end).
  by destruct (Cut (c :: s) sep) as [[a b]|].
Qed.

(** The loop body in terms of the field that the line carries. *)
Lemma parseLine_fieldOf fields r line :
  parseLine fields r line =
  match fieldOf line with
  | Some (key, value) => fields key value (setParsed key value r)
  | None => r
  end.
Proof.
  unfold parseLine, fieldOf.
  destruct (streq (TrimSpace line) []) eqn:He;
    destruct (HasPrefix (TrimSpace line) (str "%")); cbn [orb];
    try reflexivity.
  apply streq_false in He. rewrite SplitN_two by done.
  by destruct (Cut (TrimSpace line) ":") as [[a b]|].
Qed.

Lemma parseLines_fieldsOf fields r whoisData :
  parseLines fields r whoisData =
  fold_left (λ r' kv, fields kv.1 kv.2 (setParsed kv.1 kv.2 r'))
            (fieldsOf whoisData) r.
Proof.
  unfold parseLines, fieldsOf. revert r.
  induction (Split whoisData LF) as [|line lines IH]; intros r; [done|].
  simpl. rewrite IH, parseLine_fieldOf.
  by destruct (fieldOf line) as [[k v]|].
Qed.

(** C5: the three parsers go through the response line by line with the
    same loop body, and for every line: (1) a line that is blank or begins,
    after trimming, with the comment marker [%] leaves the response as it
    is; (2) so does a line without a colon; (3) every other line is split at
    its first colon, label and value are trimmed, no white space is left
    around either, and the two are what the map entry and the parser's switch
    get. *)
Theorem line_by_line {S E} (rc : RDAPClient S E) (response : RDAPResponse)
    (whoisData : list ascii) :
  parseDomainWhois rc response whoisData
    = fold_left (parseLine domainFields) (Split whoisData LF) response
  ∧ parseIPWhois rc response whoisData
    = fold_left (parseLine ipFields) (Split whoisData LF) response
  ∧ parseASNWhois rc response whoisData
    = fold_left (parseLine asnFields) (Split whoisData LF) response
  ∧ ∀ fields r line,
      (TrimSpace line = [] ∨ HasPrefix (TrimSpace line) (str "%") = true →
       parseLine fields r line = r)
      ∧ (¬ (":"%char ∈ TrimSpace line) → parseLine fields r line = r)
      ∧ (TrimSpace line ≠ [] → HasPrefix (TrimSpace line) (str "%") = false →
         ":"%char ∈ TrimSpace line →
         ∃ label value,
           TrimSpace line = label ++ ":"%char :: value
           ∧ ¬ (":"%char ∈ label)
           ∧ parseLine fields r line
             = fields (TrimSpace label) (TrimSpace value)
                 (setParsed (TrimSpace label) (TrimSpace value) r)
           ∧ leadingSpace (TrimSpace label) = false
           ∧ trailingSpace (TrimSpace label) = false
           ∧ leadingSpace (TrimSpace value) = false
           ∧ trailingSpace (TrimSpace value) = false).
Proof.
  do 3 (split; [reflexivity|]). intros fields r line.
  rewrite parseLine_fieldOf. unfold fieldOf. split; [|split].
  - intros [-> | ->]; [reflexivity|]. by rewrite orb_true_r.
  - intros Hn. rewrite (Cut_None _ _ Hn).
    by destruct (streq _ _ || HasPrefix _ _).
  - intros Hne Hp Hin. apply streq_false in Hne. rewrite Hne, Hp. cbn [orb].
    destruct (Cut (TrimSpace line) ":") as [[label value]|] eqn:Hc.
    + apply Cut_Some in Hc as [Heq Hl]. exists label, value.
      pose proof (TrimSpace_trimmed label) as [? ?].
      pose proof (TrimSpace_trimmed value) as [? ?]. done.
    + by apply Cut_is_None in Hc.
Qed.

Lemma line_by_line_witness :
  parseLine domainFields (newResponse []) (str "   ") = newResponse []
  ∧ parseLine domainFields (newResponse []) (str "% by the registry")
    = newResponse []
  ∧ parseLine domainFields (newResponse []) (str "No entries found")
    = newResponse []
  ∧ ∃ label value,
      TrimSpace (str "  nserver:  ns1.example.  ") = label ++ ":"%char :: value
      ∧ ¬ (":"%char ∈ label)
      ∧ parseLine domainFields (newResponse []) (str "  nserver:  ns1.example.  ")
        = domainFields (TrimSpace label) (TrimSpace value)
            (setParsed (TrimSpace label) (TrimSpace value) (newResponse []))
      ∧ leadingSpace (TrimSpace label) = false
      ∧ trailingSpace (TrimSpace label) = false
      ∧ leadingSpace (TrimSpace value) = false
      ∧ trailingSpace (TrimSpace value) = false.
Proof.
  pose proof (line_by_line offlineClient (newResponse []) []) as (_ & _ & _ & H).
  split.
  { apply (proj1 (H domainFields (newResponse []) (str "   "))).
    left. reflexivity. }
  split.
  { apply (proj1 (H domainFields (newResponse []) (str "% by the registry"))).
    right. reflexivity. }
  split.
  { apply (proj1 (proj2 (H domainFields (newResponse []) (str "No entries found")))).
    apply (bool_decide_unpack _). vm_compute. exact I. }
  apply (proj2 (proj2 (H domainFields (newResponse [])
                         (str "  nserver:  ns1.example.  ")))).
  - vm_compute. discriminate.
  - reflexivity.
  - apply (bool_decide_unpack _). vm_compute. exact I.
Defined.

(** ** The collections and the catch-all map *)

Section Collect.

Context {A : Type} (proj : RDAPResponse → list A).
Variable step : RDAPResponse → list ascii * list ascii → RDAPResponse.
Variable item : list ascii * list ascii → option A.
Hypothesis step_appends :
  ∀ r kv, proj (step r kv) = proj r ++ option_list (item kv).

(** A collection grows by the items of the fields, in their order. *)
Lemma fold_collects fs : ∀ r, proj (fold_left step fs r) = proj r ++ omap item fs.
Proof.
  induction fs as [|kv fs IH]; intros r; simpl.
  - by rewrite app_nil_r.
  - rewrite IH, step_appends, <- app_assoc. by destruct (item kv).
Qed.

End Collect.

Ltac eval_streq :=
  repeat match goal with
         | |- context [streq (str ?a) (str ?b)] =>
             let v := eval vm_compute in (streq (str a) (str b)) in
             change (streq (str a) (str b)) with v
         end.

Ltac switch_cases k :=
  repeat match goal with
         | |- context [streq (ToLower k) ?lit] =>
             let H := fresh "H" in
             destruct (streq (ToLower k) lit) eqn:H;
             [apply streq_true in H; rewrite ?H; eval_streq|]
         end;
  cbn [orb]; simpl; rewrite ?app_nil_r; try reflexivity.

Ltac field_step :=
  let k := fresh "k" in
  let v := fresh "v" in
  intros ? [k v];
  unfold takeField, domainFields, ipFields, asnFields, nameserverOf, statusOf,
    entityOf, domainEventOf, labelled;
  cbn [fst snd]; switch_cases k.

Lemma domain_nameservers r kv :
  Nameservers (takeField domainFields r kv)
  = Nameservers r ++ option_list (nameserverOf kv).
Proof. revert r kv. field_step. Qed.

Lemma domain_status r kv :
  Status (takeField domainFields r kv) = Status r ++ option_list (statusOf kv).
Proof. revert r kv. field_step. Qed.

Lemma domain_entities r kv :
  Entities (takeField domainFields r kv)
  = Entities r ++ option_list (entityOf kv).
Proof. revert r kv. field_step. Qed.

Lemma domain_events r kv :
  Events (takeField domainFields r kv)
  = Events r ++ option_list (domainEventOf kv).
Proof. revert r kv. field_step. Qed.

(** ** The catch-all map *)

Lemma fold_insert_lookup (fs : list (list ascii * list ascii))
    (m : gmap (list ascii) (list ascii)) (label : list ascii) :
  fold_left (λ m' kv, <[kv.1 := kv.2]> m') fs m !! label
  = match lastValue label fs with
    | Some v => Some v
    | None => m !! label
    end.
Proof.
  unfold lastValue. induction fs as [|kv fs IH] using rev_ind; [done|].
  rewrite fold_left_app, omap_app.
  change (omap (valueFor label) [kv])
    with (match valueFor label kv with Some v => [v] | None => [] end).
  cbn [fold_left].
  destruct (valueFor label kv) as [v|] eqn:Hv; unfold valueFor in Hv;
    destruct (streq kv.1 label) eqn:Hk; try discriminate.
  - apply streq_true in Hk. injection Hv as <-. rewrite last_snoc, <- Hk.
    apply lookup_insert_eq.
  - apply streq_false in Hk. rewrite app_nil_r.
    by rewrite lookup_insert_ne.
Qed.

Section Parsed.

Variable fields : list ascii → list ascii → RDAPResponse → RDAPResponse.
Hypothesis fields_keep : ∀ k v r, WhoisParsed (fields k v r) = WhoisParsed r.

Lemma fold_parsed fs : ∀ r,
  WhoisParsed (fold_left (takeField fields) fs r)
  = fold_left (λ m' kv, <[kv.1 := kv.2]> m') fs (WhoisParsed r).
Proof.
  induction fs as [|kv fs IH]; intros r; [done|].
  simpl. rewrite IH. unfold takeField. by rewrite fields_keep.
Qed.

(** The map after a parse: for each label the last value seen, or what
    the map held before. *)
Lemma parseLines_parsed r whoisData label :
  WhoisParsed (parseLines fields r whoisData) !! label
  = match lastValue label (fieldsOf whoisData) with
    | Some v => Some v
    | None => WhoisParsed r !! label
    end.
Proof.
  rewrite parseLines_fieldsOf.
  change (fold_left _ (fieldsOf whoisData) r)
    with (fold_left (takeField fields) (fieldsOf whoisData) r).
  by rewrite fold_parsed, fold_insert_lookup.
Qed.

(** Parsing the same text once more changes nothing in the map. *)
Lemma parseLines_again r whoisData :
  WhoisParsed (parseLines fields (parseLines fields r whoisData) whoisData)
  = WhoisParsed (parseLines fields r whoisData).
Proof.
  apply map_eq. intros label. rewrite !parseLines_parsed.
  by destruct (lastValue label (fieldsOf whoisData)).
Qed.

End Parsed.

Lemma domain_parsed k v r : WhoisParsed (domainFields k v r) = WhoisParsed r.
Proof. pose proof (domainFields_header k v r). congruence. Qed.

Lemma ip_parsed k v r : WhoisParsed (ipFields k v r) = WhoisParsed r.
Proof. pose proof (ipFields_header k v r). congruence. Qed.

Lemma asn_parsed k v r : WhoisParsed (asnFields k v r) = WhoisParsed r.
Proof. pose proof (asnFields_header k v r). congruence. Qed.

(** C6: after a parse of a domain response the name servers, status
    flags, events and entities are those that the response held before,
    followed by one entry for each field with a matching label, in the order
    of the lines and with repetitions kept; and the catch-all map of each of
    the three parsers holds for every label the value of the last line
    bearing that label, or what it held before when there is no such line. *)
Theorem collections_in_line_order {S E} (rc : RDAPClient S E)
    (response : RDAPResponse) (whoisData label : list ascii) :
  let r := parseDomainWhois rc response whoisData in
  let fs := fieldsOf whoisData in
  Nameservers r = Nameservers response ++ omap nameserverOf fs
  ∧ Status r = Status response ++ omap statusOf fs
  ∧ Events r = Events response ++ omap domainEventOf fs
  ∧ Entities r = Entities response ++ omap entityOf fs
  ∧ WhoisParsed r !! label
    = match lastValue label fs with
      | Some v => Some v
      | None => WhoisParsed response !! label
      end
  ∧ WhoisParsed (parseIPWhois rc response whoisData) !! label
    = match lastValue label fs with
      | Some v => Some v
      | None => WhoisParsed response !! label
      end
  ∧ WhoisParsed (parseASNWhois rc response whoisData) !! label
    = match lastValue label fs with
      | Some v => Some v
      | None => WhoisParsed response !! label
      end.
Proof.
  intros r fs. subst r fs. unfold parseDomainWhois, parseIPWhois, parseASNWhois.
  rewrite !(parseLines_fieldsOf domainFields).
  change (fold_left _ (fieldsOf whoisData) response)
    with (fold_left (takeField domainFields) (fieldsOf whoisData) response).
  split; [apply (fold_collects Nameservers), domain_nameservers|].
  split; [apply (fold_collects Status), domain_status|].
  split; [apply (fold_collects Events), domain_events|].
  split; [apply (fold_collects Entities), domain_entities|].
  split; [by rewrite (fold_parsed _ domain_parsed), fold_insert_lookup|].
  split; [apply parseLines_parsed, ip_parsed|apply parseLines_parsed, asn_parsed].
Qed.

(** C8: the conversion is a function of the query and the raw text alone,
    whatever the client and whatever it did before, so running it again gives
    the same response and the same catch-all map; and parsing a text once
    more into the response that its parse produced leaves the catch-all map
    as it is. *)
Theorem parsed_map_idempotent {S E} (rc rc' : RDAPClient S E)
    (response : RDAPResponse) (query whoisData : list ascii) :
  convertWhoisToRDAP rc query whoisData = convertWhoisToRDAP rc' query whoisData
  ∧ WhoisParsed (parseDomainWhois rc (parseDomainWhois rc response whoisData) whoisData)
    = WhoisParsed (parseDomainWhois rc response whoisData)
  ∧ WhoisParsed (parseIPWhois rc (parseIPWhois rc response whoisData) whoisData)
    = WhoisParsed (parseIPWhois rc response whoisData)
  ∧ WhoisParsed (parseASNWhois rc (parseASNWhois rc response whoisData) whoisData)
    = WhoisParsed (parseASNWhois rc response whoisData).
Proof.
  split; [reflexivity|].
  split; [apply parseLines_again, domain_parsed|].
  split; [apply parseLines_again, ip_parsed|apply parseLines_again, asn_parsed].
Qed.

(** Two name-server lines and a repeated label: both servers are listed, in
    the order of the lines, and the map keeps the later value. *)
Example repeated_lines {S E} (rc : RDAPClient S E) :
  let whoisData :=
    str "nserver: ns2.example." ++ LF :: str "state: one" ++ LF ::
    str "NSERVER: ns1.example." ++ LF :: str "state: two" in
  let r := parseDomainWhois rc (newResponse whoisData) whoisData in
  map NsLdhName (Nameservers r) = [str "ns2.example."; str "ns1.example."]
  ∧ WhoisParsed r !! str "state" = Some (str "two")
  ∧ WhoisParsed r !! str "nserver" = Some (str "ns2.example.")
  ∧ WhoisParsed r !! str "NSERVER" = Some (str "ns1.example.").
Proof. vm_compute. repeat split. Qed.

(** ** The referral follower *)

Section ResolverFacts.

Context {World : Type}.
Variable transport :
  ServerAddress → list ascii → World → result TransportError (list ascii) * World.
Variable referralHint : QueryKind → list ascii → option ServerAddress.
Variable normalHost : list ascii → list ascii.

Abbreviation norm := (normalized normalHost).
Abbreviation follow' := (follow transport referralHint normalHost).

Lemma follow_unfold allowed query server hops visited (net : Net World) :
  follow' allowed query server hops visited net =
  match exchange transport server (input query) net with
  | (Err _, net') => (Err (Transport hops server), net')
  | (Ok text, net') =>
      let visited' := visited ++ [(server, text)] in
      match referralHint (kind query) text with
      | None =>
          (Ok {| terminal := text; chain := visited'; stopped := Terminal |},
           net')
      | Some referred =>
          if inChain normalHost referred visited' then
            (Ok {| terminal := text; chain := visited'; stopped := Cycle |},
             net')
          else
            match allowed with
            | 0 =>
                (Ok {| terminal := text; chain := visited';
                       stopped := DepthExceeded |}, net')
            | S allowed' =>
                follow' allowed' query referred (S hops) visited' net'
            end
      end
  end.
Proof. by destruct allowed. Qed.

Lemma stop_here allowed query server hops visited (net : Net World) w res :
  NoDup (map (λ hop, norm hop.1) visited) →
  norm server ∉ map (λ hop, norm hop.1) visited →
  res = Err (Transport hops server)
  ∨ (∃ text st, res = Ok {| terminal := text;
                            chain := visited ++ [(server, text)];
                            stopped := st |}) →
  guarded normalHost allowed query hops visited net
    {| world := w; sent := sent net ++ [(server, input query)] |} res.
Proof.
  intros Hnd Hnew Hres. exists [server]. split; [done|]. split.
  { apply NoDup_app. split; [done|]. split; [|apply NoDup_singleton].
    intros x Hx Hs. apply list_elem_of_singleton in Hs. by subst x. }
  split; [simpl; lia|].
  destruct Hres as [->|(text & st & ->)]; simpl.
  - split; [lia|done].
  - split; [by rewrite map_app|]. exists server.
    rewrite lookup_app_r by lia.
    by replace (length visited + 1 - 1 - length visited) with 0 by lia.
Qed.

Lemma follow_guards allowed query :
  ∀ server hops visited (net : Net World) res net',
    follow' allowed query server hops visited net = (res, net') →
    NoDup (map (λ hop, norm hop.1) visited) →
    norm server ∉ map (λ hop, norm hop.1) visited →
    guarded normalHost allowed query hops visited net net' res.
Proof.
  induction allowed as [allowed IH] using lt_wf_ind.
  intros server hops visited net res net' Hrun Hnd Hnew. revert Hrun.
  rewrite follow_unfold. unfold exchange.
  destruct (transport server (input query) (world net)) as [[text|e] w];
    cbn zeta.
  2: { intros [= <- <-]. apply stop_here; auto. }
  destruct (referralHint (kind query) text) as [referred|].
  2: { intros [= <- <-]. apply stop_here; eauto. }
  destruct (inChain normalHost referred (visited ++ [(server, text)])) eqn:Hin.
  { intros [= <- <-]. apply stop_here; eauto. }
  destruct allowed as [|allowed'].
  { intros [= <- <-]. apply stop_here; eauto. }
  intros Hrun. apply bool_decide_eq_false in Hin.
  rewrite map_app in Hin. cbn [map fst] in Hin.
  apply IH in Hrun as (servers & Hsent & Hnd' & Hlen & Hres); [|lia|..].
  - exists (server :: servers). cbn [sent] in Hsent.
    split; [by rewrite Hsent, <- app_assoc|].
    split. { rewrite map_app, <- app_assoc in Hnd'. exact Hnd'. }
    split; [simpl; lia|].
    destruct res as [raw|[| |h s]]; try done.
    + destruct Hres as [Hc [last Hl]]. rewrite map_app, <- app_assoc in Hc.
      split; [exact Hc|]. exists last.
      rewrite length_app in Hl. cbn [length] in *.
      by replace (length visited + S (length servers) - 1)
        with (length visited + 1 + length servers - 1) by lia.
    + destruct Hres as [Hh Hs]. split; [simpl; lia|].
      destruct servers as [|s' servers]; [simpl in Hlen; lia|].
      cbn [length] in *.
      replace (S (S (length servers)) - 1) with (S (length servers)) by lia.
      by replace (S (length servers) - 1) with (length servers) in Hs by lia.
  - rewrite map_app. cbn [map fst]. apply NoDup_app. split; [done|].
    split; [|apply NoDup_singleton].
    intros x Hx Hs. apply list_elem_of_singleton in Hs. by subst x.
  - by rewrite map_app.
Qed.

End ResolverFacts.

(** C9: in every resolution the servers queried are pairwise different by
    normalized host and port, there are at most [maxHops] hops after the
    first query, the chain of a result lists exactly the servers queried and
    a transport failure carries a hop count of at most [maxHops]; and a
    response that refers back to the server just queried ends the resolution
    there, as a cycle, with that response as the terminal one and without a
    further query. *)
Theorem referral_follower_guards {World : Type}
    (transport : ServerAddress → list ascii → World
                 → result TransportError (list ascii) * World)
    (resolveInitialServer : QueryKind → list ascii → option ServerAddress)
    (referralHint : QueryKind → list ascii → option ServerAddress)
    (normalHost : list ascii → list ascii)
    (query : Query) (maxHops : nat) (net : Net World) :
  (∀ res net',
     resolve transport resolveInitialServer referralHint normalHost
       query maxHops net = (res, net') →
     ∃ servers,
       sent net' = sent net ++ asked query servers
       ∧ NoDup (map (normalized normalHost) servers)
       ∧ length servers ≤ 1 + maxHops
       ∧ match res with
         | Ok raw => map fst (chain raw) = servers ∧ 1 ≤ length servers
         | Err (Transport hops server) =>
             hops + 1 = length servers ∧ hops ≤ maxHops
             ∧ servers !! hops = Some server
         | Err NoServer => servers = []
         | Err UnclassifiedInput => False
         end)
  ∧ (∀ allowed server hops visited text w referred,
       transport server (input query) (world net) = (Ok text, w) →
       referralHint (kind query) text = Some referred →
       normalized normalHost referred = normalized normalHost server →
       follow transport referralHint normalHost allowed query server hops
         visited net
       = (Ok {| terminal := text; chain := visited ++ [(server, text)];
                stopped := Cycle |},
          {| world := w; sent := sent net ++ [(server, input query)] |})).
Proof.
  split.
  - intros res net'. unfold resolve.
    destruct (resolveInitialServer (kind query) (input query)) as [server|].
    + intros Hrun. apply follow_guards in Hrun
        as (servers & Hsent & Hnd & Hlen & Hres);
        [|apply NoDup_nil_2|apply not_elem_of_nil].
      exists servers. split; [done|]. split; [done|]. split; [lia|].
      destruct res as [raw|[| |h s]]; try done.
      * destruct Hres as [Hc _]. split; [done|lia].
      * destruct Hres as [Hh Hs]. simpl in Hh.
        split; [lia|]. split; [lia|].
        by replace (length servers - 1) with h in Hs by lia.
    + intros [= <- <-]. exists []. simpl. rewrite app_nil_r.
      repeat split; [apply NoDup_nil_2|lia].
  - intros allowed server hops visited text w referred Ht Hh Hself.
    rewrite follow_unfold. unfold exchange. rewrite Ht. cbn zeta. rewrite Hh.
    assert (Hin : inChain normalHost referred (visited ++ [(server, text)]) = true).
    { apply bool_decide_eq_true. rewrite map_app, Hself.
      apply elem_of_app. right. apply list_elem_of_singleton. done. }
    by rewrite Hin.
Qed.

Lemma referral_follower_guards_witness :
  (∃ servers,
     sent (resolve ringTransport ringDirectory ringHint ToLower
             exampleQuery 5 quietNet).2
     = sent quietNet ++ asked exampleQuery servers
     ∧ NoDup (map (normalized ToLower) servers)
     ∧ length servers ≤ 1 + 5)
  ∧ follow ringTransport ringHint ToLower 5 exampleQuery
      {| host := str "C.EXAMPLE"; port := Some wellKnownPort |} 0 [] quietNet
    = (Ok {| terminal := str "c.example";
             chain := [({| host := str "C.EXAMPLE"; port := Some wellKnownPort |},
                        str "c.example")];
             stopped := Cycle |},
       {| world := ();
          sent := [({| host := str "C.EXAMPLE"; port := Some wellKnownPort |},
                    str "example.org")] |}).
Proof.
  destruct (referral_follower_guards ringTransport ringDirectory ringHint ToLower
              exampleQuery 5 quietNet) as [Hall Hself].
  split.
  - destruct (Hall _ _ eq_refl) as (servers & H1 & H2 & H3 & _). eauto.
  - apply (Hself 5 {| host := str "C.EXAMPLE"; port := Some wellKnownPort |}
             0 [] (str "c.example") () {| host := str "c.example"; port := None |});
      reflexivity.
Defined.




(** * Further properties *)

(** ** The classifiers *)

(** X1: [isIP] accepts exactly two kinds of strings: four groups of one to
    three decimal digits with three dots between them, and non-empty strings
    of hexadecimal digits and colons. *)
Theorem isIP_accepts (query : list ascii) :
  isIP query = true ↔ dottedQuadShape query = true ∨ hexColonShape query = true.
Proof. apply isIP_shape. Qed.

Lemma hexColonShape_no_dot q : hexColonShape q = true → ¬ ("."%char ∈ q).
Proof.
  unfold hexColonShape. destruct q as [|c q]; [done|].
  intros H Hin. rewrite forallb_forall in H.
  apply list_elem_of_In, H in Hin. done.
Qed.

(** X2: [isDomain] accepts exactly the strings that contain a dot and are
    not four groups of one to three decimal digits with three dots between
    them. *)
Theorem isDomain_accepts (query : list ascii) :
  isDomain query = true ↔ "."%char ∈ query ∧ dottedQuadShape query = false.
Proof.
  unfold isDomain. rewrite andb_true_iff, negb_true_iff.
  change (str ".") with ["."%char]. rewrite Contains_one. split.
  - intros [Hdot Hip]. split; [done|].
    destruct (dottedQuadShape query) eqn:Hq; [|done].
    assert (isIP query = true) by (apply isIP_shape; auto). congruence.
  - intros [Hdot Hq]. split; [done|].
    destruct (isIP query) eqn:Hip; [|done].
    apply isIP_shape in Hip as [H|H]; [congruence|].
    by apply hexColonShape_no_dot in H.
Qed.

Lemma classify_IP q :
  isIP q = true →
  isDomain q = false
  ∧ classify q = (if Contains q (str ":") then IPv6 else IPv4).
Proof.
  intros H. unfold classify, isDomain, getIPVersion. rewrite H, andb_false_r.
  split; [done|]. by destruct (Contains q (str ":")).
Qed.

(** ** What each parser leaves alone *)

Ltac keeps fields_ok :=
  apply parseLines_keeps; [intros; fields_ok|reflexivity].

Lemma domain_frame r raw :
  let r' := parseLines domainFields r raw in
  addresses r' = addresses r ∧ domainNames r' = domainNames r
  ∧ Autnum r' = Autnum r ∧ networkLists r' = networkLists r.
Proof. cbv zeta. repeat split; keeps fields_cases. Qed.

Lemma ip_frame r raw :
  let r' := parseLines ipFields r raw in
  addresses r' = addresses r ∧ domainNames r' = domainNames r
  ∧ Autnum r' = Autnum r ∧ domainLists r' = domainLists r.
Proof. cbv zeta. repeat split; keeps fields_cases. Qed.

Lemma asn_frame r raw :
  let r' := parseLines asnFields r raw in
  addresses r' = addresses r ∧ domainNames r' = domainNames r
  ∧ Autnum r' = Autnum r ∧ domainLists r' = domainLists r
  ∧ Network r' = Network r.
Proof. cbv zeta. repeat split; keeps fields_cases. Qed.

(** X3: what the parsers never write.  None of them changes the conformance
    list, the notices, the raw text, the object class, the addresses, the
    two domain names or the field [autnum]; the domain parser leaves remarks
    and network alone, the IP and ASN parsers leave entities, status flags
    and name servers alone, and the ASN parser leaves the network alone as
    well. *)
Theorem parsers_keep_other_fields {S E} (rc : RDAPClient S E)
    (response : RDAPResponse) (whoisData : list ascii) :
  (let r := parseDomainWhois rc response whoisData in
   header r = header response ∧ addresses r = addresses response
   ∧ domainNames r = domainNames response ∧ Autnum r = Autnum response
   ∧ Remarks r = Remarks response ∧ Network r = Network response)
  ∧ (let r := parseIPWhois rc response whoisData in
     header r = header response ∧ addresses r = addresses response
     ∧ domainNames r = domainNames response ∧ Autnum r = Autnum response
     ∧ Entities r = Entities response ∧ Status r = Status response
     ∧ Nameservers r = Nameservers response)
  ∧ (let r := parseASNWhois rc response whoisData in
     header r = header response ∧ addresses r = addresses response
     ∧ domainNames r = domainNames response ∧ Autnum r = Autnum response
     ∧ Entities r = Entities response ∧ Status r = Status response
     ∧ Nameservers r = Nameservers response
     ∧ Network r = Network response).
Proof.
  unfold parseDomainWhois, parseIPWhois, parseASNWhois. cbv zeta.
  pose proof (domain_frame response whoisData) as (Hd1 & Hd2 & Hd3 & Hd4).
  pose proof (ip_frame response whoisData) as (Hi1 & Hi2 & Hi3 & Hi4).
  pose proof (asn_frame response whoisData) as (Ha1 & Ha2 & Ha3 & Ha4 & Ha5).
  unfold networkLists in Hd4. unfold domainLists in Hi4, Ha4.
  injection Hd4 as Hd4 Hd5. injection Hi4 as Hi4 Hi5 Hi6.
  injection Ha4 as Ha4 Ha6 Ha7.
  split; [|split].
  - split; [apply parseLines_header, domain_header|]. by repeat split.
  - split; [apply parseLines_header, ip_header|]. by repeat split.
  - split; [apply parseLines_header, asn_header|]. by repeat split.
Qed.

(** ** The envelope of each kind *)

Lemma convert_ip {S E} (rc : RDAPClient S E) (query raw : list ascii) :
  isIP query = true →
  ∃ r, convertWhoisToRDAP rc query raw = Ok r
       ∧ ObjectClassName r = str "ip network"
       ∧ StartAddress r = query ∧ EndAddress r = query
       ∧ IPVersion r = (if Contains query (str ":") then str "v6" else str "v4")
       ∧ LdhName r = [] ∧ UnicodeName r = [] ∧ Autnum r = []
       ∧ Entities r = [] ∧ Status r = [] ∧ Nameservers r = [].
Proof.
  intros Hip. destruct (classify_IP _ Hip) as [Hd _].
  unfold convertWhoisToRDAP. rewrite Hd, Hip. eexists. split; [reflexivity|].
  unfold parseIPWhois.
  set (r0 := asIP query (getIPVersion query) (newResponse raw)).
  pose proof (ip_frame r0 raw) as (H1 & H2 & H3 & H4).
  pose proof (parseLines_header ipFields r0 raw ip_header) as H0.
  unfold addresses in H1. unfold domainNames in H2. unfold domainLists in H4.
  unfold header in H0. cbv zeta in *.
  injection H0 as _ _ _ H0. injection H1 as H1 H1' H1''.
  injection H2 as H2 H2'. injection H4 as H4 H4' H4''.
  cbn [ObjectClassName StartAddress EndAddress IPVersion LdhName UnicodeName
       Autnum Entities Status Nameservers appendNotice].
  rewrite H0, H1, H1', H1'', H2, H2', H3, H4, H4', H4''. by repeat split.
Qed.

(** X4: the envelope of an IP query.  It has object class [ip network], the
    query as start and as end address, version [v6] when the query contains
    a colon and [v4] otherwise, and none of the fields of a domain or of an
    ASN: the two names and [autnum] are empty, and there are no entities,
    status flags or name servers. *)
Theorem ip_envelope {S E} (rc : RDAPClient S E) (query raw : list ascii) :
  isIP query = true →
  ∃ r, convertWhoisToRDAP rc query raw = Ok r
       ∧ ObjectClassName r = str "ip network"
       ∧ StartAddress r = query ∧ EndAddress r = query
       ∧ IPVersion r = (if Contains query (str ":") then str "v6" else str "v4")
       ∧ LdhName r = [] ∧ UnicodeName r = [] ∧ Autnum r = []
       ∧ Entities r = [] ∧ Status r = [] ∧ Nameservers r = [].
Proof. apply convert_ip. Qed.

Lemma ip_envelope_witness :
  isIP (str "2001:db8::1") = true
  ∧ ∃ r, convertWhoisToRDAP offlineClient (str "2001:db8::1") (str "netname: DOC")
         = Ok r
         ∧ ObjectClassName r = str "ip network"
         ∧ StartAddress r = str "2001:db8::1" ∧ EndAddress r = str "2001:db8::1"
         ∧ IPVersion r = str "v6"
         ∧ LdhName r = [] ∧ UnicodeName r = [] ∧ Autnum r = []
         ∧ Entities r = [] ∧ Status r = [] ∧ Nameservers r = [].
Proof.
  split; [reflexivity|].
  apply (ip_envelope offlineClient (str "2001:db8::1") (str "netname: DOC")).
  reflexivity.
Defined.

Lemma isASCII_not_lead c :
  isASCII c = true →
  Ascii.eqb c (byte 196) = false ∧ Ascii.eqb c (byte 226) = false.
Proof.
  intros H. destruct c as [[] [] [] [] [] [] [] []]; try discriminate H;
    split; reflexivity.
Qed.

Lemma ToLower_cons_ASCII c r :
  isASCII c = true → ToLower (c :: r) = lowerByte c :: ToLower r.
Proof.
  intros H. destruct (isASCII_not_lead c H) as [H1 H2].
  destruct r as [|d [|e r]]; cbn [ToLower]; rewrite ?H1, ?H2; reflexivity.
Qed.

(** On ASCII strings [ToLower] lowers byte by byte. *)
Lemma ToLower_ASCII s :
  forallb isASCII s = true → ToLower s = map lowerByte s.
Proof.
  induction s as [|c s IH]; [done|]. cbn [forallb]. intros H.
  apply andb_true_iff in H as [Hc Hs].
  rewrite ToLower_cons_ASCII by done. cbn [map]. by rewrite IH.
Qed.

(** X5: the envelope of a domain query.  It has object class [domain], the
    query as it was written as [unicodeName] and, when the query is made of
    ASCII bytes, the query with its capitals turned into small letters as
    [ldhName]; it has none of the fields of an IP or ASN query: addresses,
    version and [autnum] are empty, there are no remarks and no network. *)
Theorem domain_envelope {S E} (rc : RDAPClient S E) (query raw : list ascii) :
  isDomain query = true →
  ∃ r, convertWhoisToRDAP rc query raw = Ok r
       ∧ ObjectClassName r = str "domain"
       ∧ UnicodeName r = query
       ∧ (forallb isASCII query = true → LdhName r = map lowerByte query)
       ∧ StartAddress r = [] ∧ EndAddress r = [] ∧ IPVersion r = []
       ∧ Autnum r = [] ∧ Remarks r = [] ∧ Network r = None.
Proof.
  intros Hd. unfold convertWhoisToRDAP. rewrite Hd.
  eexists. split; [reflexivity|]. unfold parseDomainWhois.
  set (r0 := asDomain query (newResponse raw)).
  pose proof (domain_frame r0 raw) as (H1 & H2 & H3 & H4).
  pose proof (parseLines_header domainFields r0 raw domain_header) as H0.
  unfold addresses in H1. unfold domainNames in H2. unfold networkLists in H4.
  unfold header in H0. cbv zeta in *.
  injection H0 as _ _ _ H0. injection H1 as H1 H1' H1''.
  injection H2 as H2 H2'. injection H4 as H4 H4'.
  cbn [ObjectClassName StartAddress EndAddress IPVersion LdhName UnicodeName
       Autnum Remarks Network appendNotice].
  rewrite H0, H1, H1', H1'', H2, H2', H3, H4, H4'.
  split; [done|]. split; [done|].
  split; [intros Ha; by apply ToLower_ASCII|]. by repeat split.
Qed.

Lemma domain_envelope_witness :
  isDomain (str "Example.COM") = true
  ∧ forallb isASCII (str "Example.COM") = true
  ∧ ∃ r, convertWhoisToRDAP offlineClient (str "Example.COM") (str "descr: x")
         = Ok r
         ∧ ObjectClassName r = str "domain"
         ∧ UnicodeName r = str "Example.COM"
         ∧ LdhName r = str "example.com"
         ∧ StartAddress r = [] ∧ EndAddress r = [] ∧ IPVersion r = []
         ∧ Autnum r = [] ∧ Remarks r = [] ∧ Network r = None.
Proof.
  split; [reflexivity|]. split; [reflexivity|].
  destruct (domain_envelope offlineClient (str "Example.COM") (str "descr: x")
              eq_refl) as (r & Hr & Ho & Hu & Hl & Hrest).
  exists r. split; [exact Hr|]. split; [exact Ho|]. split; [exact Hu|].
  split; [exact (Hl eq_refl)|exact Hrest].
Defined.

Lemma hexDigits_shape q :
  q ≠ [] → forallb isHexDigit q = true →
  hexColonShape q = true ∧ Contains q (str ":") = false.
Proof.
  intros Hne Hall. rewrite forallb_forall in Hall. split.
  - unfold hexColonShape. destruct q as [|c q]; [done|].
    apply forallb_forall. intros x Hx. apply Hall in Hx.
    unfold isHexDigit in Hx. by rewrite Hx.
  - destruct (Contains q (str ":")) eqn:Hc; [|done].
    apply (Contains_one q ":") in Hc. apply list_elem_of_In, Hall in Hc.
    discriminate Hc.
Qed.

(** X6: a non-empty query of hexadecimal digits only, so every bare decimal
    number, passes the IP check, is of kind IPv4 and gets the envelope of an
    IP network with version [v4]; its field [autnum] stays empty. *)
Theorem hex_digits_are_ip {S E} (rc : RDAPClient S E) (query raw : list ascii) :
  query ≠ [] → forallb isHexDigit query = true →
  isIP query = true
  ∧ classify query = IPv4
  ∧ ∃ r, convertWhoisToRDAP rc query raw = Ok r
         ∧ ObjectClassName r = str "ip network"
         ∧ StartAddress r = query ∧ EndAddress r = query
         ∧ IPVersion r = str "v4"
         ∧ Autnum r = [].
Proof.
  intros Hne Hall. destruct (hexDigits_shape _ Hne Hall) as [Hs Hc].
  assert (Hip : isIP query = true) by (apply isIP_shape; auto).
  split; [done|]. split.
  { destruct (classify_IP _ Hip) as [_ ->]. by rewrite Hc. }
  destruct (convert_ip rc query raw Hip)
    as (r & Hr & Ho & Hs1 & Hs2 & Hv & _ & _ & Ha & _).
  exists r. rewrite Hc in Hv. by repeat split.
Qed.

Lemma hex_digits_are_ip_witness :
  str "64512" ≠ [] ∧ forallb isHexDigit (str "64512") = true
  ∧ isIP (str "64512") = true
  ∧ classify (str "64512") = IPv4
  ∧ ∃ r, convertWhoisToRDAP offlineClient (str "64512") (str "aut-num: AS64512")
         = Ok r
         ∧ ObjectClassName r = str "ip network"
         ∧ StartAddress r = str "64512" ∧ EndAddress r = str "64512"
         ∧ IPVersion r = str "v4"
         ∧ Autnum r = [].
Proof.
  split; [discriminate|]. split; [reflexivity|].
  apply (hex_digits_are_ip offlineClient (str "64512") (str "aut-num: AS64512"));
    [discriminate|reflexivity].
Defined.

(** X7: the envelope of a query that takes the ASN branch.  Such a query is
    no domain and no IP; its envelope has no addresses, no version, no
    domain names, no entities, status flags or name servers, and no
    network. *)
Theorem asn_envelope {S E} (rc : RDAPClient S E) (query raw : list ascii) :
  classify query = ASN →
  isDomain query = false ∧ isIP query = false ∧ isASN query = true
  ∧ ∃ r, convertWhoisToRDAP rc query raw = Ok r
         ∧ StartAddress r = [] ∧ EndAddress r = [] ∧ IPVersion r = []
         ∧ LdhName r = [] ∧ UnicodeName r = []
         ∧ Entities r = [] ∧ Status r = [] ∧ Nameservers r = []
         ∧ Network r = None.
Proof.
  intros Hk. unfold classify in Hk. unfold convertWhoisToRDAP.
  destruct (isDomain query); [discriminate|].
  destruct (isIP query).
  { by destruct (streq (getIPVersion query) (str "v6")). }
  destruct (isASN query); [|discriminate].
  do 3 (split; [reflexivity|]).
  eexists. split; [reflexivity|]. unfold parseASNWhois.
  set (r0 := asAutnum query (newResponse raw)).
  pose proof (asn_frame r0 raw) as (H1 & H2 & H3 & H4 & H5).
  unfold addresses in H1. unfold domainNames in H2. unfold domainLists in H4.
  cbv zeta in *.
  injection H1 as H1 H1' H1''. injection H2 as H2 H2'.
  injection H4 as H4 H4' H4''.
  cbn [StartAddress EndAddress IPVersion LdhName UnicodeName
       Entities Status Nameservers Network appendNotice].
  rewrite H1, H1', H1'', H2, H2', H4, H4', H4'', H5. by repeat split.
Qed.

Lemma asn_envelope_witness :
  classify (str "AS64512") = ASN
  ∧ isDomain (str "AS64512") = false ∧ isIP (str "AS64512") = false
  ∧ isASN (str "AS64512") = true
  ∧ ∃ r, convertWhoisToRDAP offlineClient (str "AS64512") (str "country: ZZ")
         = Ok r
         ∧ StartAddress r = [] ∧ EndAddress r = [] ∧ IPVersion r = []
         ∧ LdhName r = [] ∧ UnicodeName r = []
         ∧ Entities r = [] ∧ Status r = [] ∧ Nameservers r = []
         ∧ Network r = None.
Proof.
  split; [reflexivity|].
  apply (asn_envelope offlineClient (str "AS64512") (str "country: ZZ")).
  reflexivity.
Defined.

Section Overwrite.

Context {A : Type} (proj : RDAPResponse → A).
Variable step : RDAPResponse → list ascii * list ascii → RDAPResponse.
Variable item : list ascii * list ascii → option A.
Hypothesis step_sets : ∀ r kv, proj (step r kv) = default (proj r) (item kv).

(** A field that is assigned holds what the last matching line gave. *)
Lemma fold_overwrites fs :
  ∀ r, proj (fold_left step fs r) = lastItem item fs (proj r).
Proof.
  unfold lastItem. induction fs as [|kv fs IH] using rev_ind; intros r; [done|].
  rewrite fold_left_app, omap_app. cbn [fold_left].
  rewrite step_sets, IH.
  change (omap item [kv]) with (match item kv with Some v => [v] | None => [] end).
  destruct (item kv) as [x|].
  - by rewrite last_snoc.
  - by rewrite app_nil_r.
Qed.

End Overwrite.

Ltac item_step :=
  let k := fresh "k" in
  let v := fresh "v" in
  intros ? [k v];
  unfold takeField, domainFields, ipFields, asnFields, remarkOf,
    registryEventOf, countryOf, domainNameOf, networkNameOf, asNameOf, labelled;
  cbn [fst snd]; switch_cases k.

Lemma ip_remarks r kv :
  Remarks (takeField ipFields r kv) = Remarks r ++ option_list (remarkOf kv).
Proof. revert r kv. item_step. Qed.

Lemma ip_events r kv :
  Events (takeField ipFields r kv) = Events r ++ option_list (registryEventOf kv).
Proof. revert r kv. item_step. Qed.

Lemma ip_name r kv :
  Name (takeField ipFields r kv) = default (Name r) (networkNameOf kv).
Proof. revert r kv. item_step. Qed.

Lemma ip_network r kv :
  Network (takeField ipFields r kv)
  = default (Network r) (Some <$> countryOf kv).
Proof. revert r kv. item_step. Qed.

Lemma asn_remarks r kv :
  Remarks (takeField asnFields r kv) = Remarks r ++ option_list (remarkOf kv).
Proof. revert r kv. item_step. Qed.

Lemma asn_events r kv :
  Events (takeField asnFields r kv) = Events r ++ option_list (registryEventOf kv).
Proof. revert r kv. item_step. Qed.

Lemma asn_name r kv :
  Name (takeField asnFields r kv) = default (Name r) (asNameOf kv).
Proof. revert r kv. item_step. Qed.

Lemma domain_name r kv :
  Name (takeField domainFields r kv) = default (Name r) (domainNameOf kv).
Proof. revert r kv. item_step. Qed.

Lemma parseLines_takeField fields r whoisData :
  parseLines fields r whoisData
  = fold_left (takeField fields) (fieldsOf whoisData) r.
Proof. apply parseLines_fieldsOf. Qed.

(** X8: after a parse of an IP response the remarks and the events are those
    that the response held before, followed by one entry for each matching
    field in the order of the lines; the name is the value of the last
    [netname] or [network name] field and the network that of the last
    [country] field, or what they were before when there is no such
    field. *)
Theorem ip_collections {S E} (rc : RDAPClient S E)
    (response : RDAPResponse) (whoisData : list ascii) :
  let r := parseIPWhois rc response whoisData in
  let fs := fieldsOf whoisData in
  Remarks r = Remarks response ++ omap remarkOf fs
  ∧ Events r = Events response ++ omap registryEventOf fs
  ∧ Name r = lastItem networkNameOf fs (Name response)
  ∧ Network r = lastItem (λ kv, Some <$> countryOf kv) fs (Network response).
Proof.
  cbv zeta. unfold parseIPWhois. rewrite parseLines_takeField.
  split; [apply (fold_collects Remarks), ip_remarks|].
  split; [apply (fold_collects Events), ip_events|].
  split; [apply (fold_overwrites Name), ip_name|].
  apply (fold_overwrites Network), ip_network.
Qed.

(** X9: after a parse of an ASN response the remarks and the events are
    those that the response held before, followed by one entry for each
    matching field in the order of the lines; the name is the value of the
    last [as-name] or [aut-num] field, or what it was before. *)
Theorem asn_collections {S E} (rc : RDAPClient S E)
    (response : RDAPResponse) (whoisData : list ascii) :
  let r := parseASNWhois rc response whoisData in
  let fs := fieldsOf whoisData in
  Remarks r = Remarks response ++ omap remarkOf fs
  ∧ Events r = Events response ++ omap registryEventOf fs
  ∧ Name r = lastItem asNameOf fs (Name response).
Proof.
  cbv zeta. unfold parseASNWhois. rewrite parseLines_takeField.
  split; [apply (fold_collects Remarks), asn_remarks|].
  split; [apply (fold_collects Events), asn_events|].
  apply (fold_overwrites Name), asn_name.
Qed.

(** X10: after a parse of a domain response the name is the value of the
    last [domain name] field, or what it was before when there is none. *)
Theorem domain_name_last {S E} (rc : RDAPClient S E)
    (response : RDAPResponse) (whoisData : list ascii) :
  Name (parseDomainWhois rc response whoisData)
  = lastItem domainNameOf (fieldsOf whoisData) (Name response).
Proof.
  unfold parseDomainWhois. rewrite parseLines_takeField.
  apply (fold_overwrites Name), domain_name.
Qed.

(** ** The query as a whole *)

(** X11: [QueryRDAP] succeeds exactly when [Whois] does.  When [Whois] gives
    a text the result is the conversion of that text, which carries it as
    raw text; when [Whois] fails the failure is passed on as the cause of
    [failed to query WHOIS]; the state is left as [Whois] left it, and the
    error [failed to convert WHOIS to RDAP] never occurs. *)
Theorem QueryRDAP_follows_Whois {S E} (rc : RDAPClient S E)
    (query : list ascii) (s : S) :
  match Whois rc query s with
  | (Ok whoisData, s') =>
      ∃ r, QueryRDAP rc query s = (Ok r, s')
           ∧ convertWhoisToRDAP rc query whoisData = Ok r
           ∧ RawWhois r = whoisData
  | (Err e, s') =>
      QueryRDAP rc query s
      = (Err (Errorf (str "failed to query WHOIS") (Cause e)), s')
  end.
Proof.
  unfold QueryRDAP. destruct (Whois rc query s) as [[whoisData|e] s']; [|done].
  destruct (convert_header rc query whoisData) as (r & Hr & Hh).
  rewrite Hr. eexists. split; [done|]. split; [done|].
  unfold header in Hh. injection Hh as _ _ Hw _. exact Hw.
Qed.

(** ** A text made of parts *)

Lemma Split_parts sep b : ∀ a,
  Split (a ++ sep :: b) sep = Split a sep ++ Split b sep.
Proof.
  intros a. remember (length a) as n eqn:Hn. revert a Hn.
  induction n as [n IH] using lt_wf_ind. intros a ->.
  destruct (Cut a sep) as [[a1 a2]|] eqn:Hc.
  - apply Cut_Some in Hc as [-> Hn1].
    rewrite <- app_assoc. cbn [app]. rewrite !Split_app by done.
    assert (Hlt : length a2 < length (a1 ++ sep :: a2)).
    { rewrite length_app. simpl. lia. }
    rewrite (IH (length a2) Hlt a2 eq_refl).
    by rewrite (Split_app a1 sep a2).
  - apply Cut_is_None in Hc. rewrite Split_app by done.
    by rewrite (Split_whole a sep).
Qed.

Lemma parseLines_parts fields r a b :
  parseLines fields r (a ++ LF :: b)
  = parseLines fields (parseLines fields r a) b.
Proof. unfold parseLines. by rewrite Split_parts, fold_left_app. Qed.

Lemma parseLines_empty fields r : parseLines fields r [] = r.
Proof. reflexivity. Qed.

Lemma parseLines_skipped fields r c :
  ¬ (LF ∈ c) → fieldOf c = None → parseLines fields r c = r.
Proof.
  intros Hn Hc. unfold parseLines. rewrite Split_whole by done.
  cbn [fold_left]. by rewrite parseLine_fieldOf, Hc.
Qed.

(** X12: parsing composes.  The parse of two texts with a line feed between
    them is the parse of the second text into the response that the parse of
    the first has given. *)
Theorem parsing_in_parts {S E} (rc : RDAPClient S E) (response : RDAPResponse)
    (a b : list ascii) :
  parseDomainWhois rc response (a ++ LF :: b)
  = parseDomainWhois rc (parseDomainWhois rc response a) b
  ∧ parseIPWhois rc response (a ++ LF :: b)
    = parseIPWhois rc (parseIPWhois rc response a) b
  ∧ parseASNWhois rc response (a ++ LF :: b)
    = parseASNWhois rc (parseASNWhois rc response a) b.
Proof. repeat split; apply parseLines_parts. Qed.

(** X13: lines without a field do not count.  A line feed at the end of the
    text changes nothing, and neither does a line, anywhere in the text,
    that carries no field (a blank line, a comment, a line without a
    colon). *)
Theorem skipped_lines_do_not_count {S E} (rc : RDAPClient S E)
    (response : RDAPResponse) (a b c : list ascii) :
  (parseDomainWhois rc response (a ++ [LF]) = parseDomainWhois rc response a
   ∧ parseIPWhois rc response (a ++ [LF]) = parseIPWhois rc response a
   ∧ parseASNWhois rc response (a ++ [LF]) = parseASNWhois rc response a)
  ∧ (¬ (LF ∈ c) → fieldOf c = None →
     parseDomainWhois rc response (a ++ LF :: c ++ LF :: b)
     = parseDomainWhois rc response (a ++ LF :: b)
     ∧ parseIPWhois rc response (a ++ LF :: c ++ LF :: b)
       = parseIPWhois rc response (a ++ LF :: b)
     ∧ parseASNWhois rc response (a ++ LF :: c ++ LF :: b)
       = parseASNWhois rc response (a ++ LF :: b)).
Proof.
  unfold parseDomainWhois, parseIPWhois, parseASNWhois. split.
  - repeat split; by rewrite parseLines_parts, parseLines_empty.
  - intros Hn Hc.
    repeat split; rewrite !parseLines_parts; by rewrite (parseLines_skipped _ _ c).
Qed.

Lemma skipped_lines_do_not_count_witness :
  ¬ (LF ∈ str "% Copyright") ∧ fieldOf (str "% Copyright") = None
  ∧ parseDomainWhois offlineClient (newResponse [])
      (str "nserver: a." ++ LF :: str "% Copyright" ++ LF :: str "status: ok")
    = parseDomainWhois offlineClient (newResponse [])
        (str "nserver: a." ++ LF :: str "status: ok").
Proof.
  assert (Hn : ¬ (LF ∈ str "% Copyright")).
  { apply (bool_decide_unpack _). vm_compute. exact I. }
  split; [exact Hn|]. split; [reflexivity|].
  apply (proj2 (skipped_lines_do_not_count offlineClient (newResponse [])
                  (str "nserver: a.") (str "status: ok") (str "% Copyright"))
           Hn eq_refl).
Defined.

(** ** Line ends *)

Lemma asciiSpace_not_tail c :
  asciiSpace c = true →
  (∀ x, space2 x c = false) ∧ (∀ x y, space3 x y c = false).
Proof.
  intros H.
  assert (Hc : Ascii.eqb c (byte 133) = false ∧ Ascii.eqb c (byte 160) = false
               ∧ inRange (byte 128) (byte 138) c = false
               ∧ Ascii.eqb c (byte 168) = false ∧ Ascii.eqb c (byte 169) = false
               ∧ Ascii.eqb c (byte 175) = false ∧ Ascii.eqb c (byte 159) = false
               ∧ Ascii.eqb c (byte 128) = false).
  { destruct c as [[] [] [] [] [] [] [] []]; try discriminate H;
      repeat split; reflexivity. }
  destruct Hc as (H1 & H2 & H3 & H4 & H5 & H6 & H7 & H8). split.
  - intros x. unfold space2. rewrite H1, H2. apply andb_false_r.
  - intros x y. unfold space3. rewrite H3, H4, H5, H6, H7, H8.
    cbn [orb]. by rewrite !andb_false_r.
Qed.

Lemma leadingSpace_snoc l c :
  asciiSpace c = true → l ≠ [] → leadingSpace l = false →
  leadingSpace (l ++ [c]) = false.
Proof.
  intros Hc Hne Hl. destruct (asciiSpace_not_tail c Hc) as [H2 H3].
  unfold leadingSpace in *.
  destruct l as [|x [|y [|z l]]]; [done|..]; cbn [app frontSpace] in *.
  - rewrite orb_false_r in Hl. by rewrite H2, orb_false_r, Hl.
  - rewrite orb_false_r in Hl. by rewrite H3, orb_false_r, Hl.
  - exact Hl.
Qed.

Lemma trimLeft_snoc c : asciiSpace c = true → ∀ l,
  trimLeft (l ++ [c])
  = match trimLeft l with [] => [] | _ :: _ => trimLeft l ++ [c] end.
Proof.
  intros Hc l. unfold trimLeft.
  induction l as [s H|x r H IH|x y r H1 H2 IH|x y z r H1 H2 H3 IH]
    using (trimFront_ind space2 space3).
  - rewrite (trimFront_clean _ _ s) by done. destruct s as [|x s].
    + cbn [app]. by rewrite trimFront_one.
    + apply trimFront_clean. by apply leadingSpace_snoc.
  - cbn [app]. by rewrite !trimFront_one.
  - cbn [app]. by rewrite !trimFront_two.
  - cbn [app]. by rewrite !trimFront_three.
Qed.

Lemma trimRight_snoc c t : asciiSpace c = true → trimRight (t ++ [c]) = trimRight t.
Proof.
  intros Hc. unfold trimRight, trimRev. rewrite rev_app_distr. cbn [rev app].
  by rewrite trimFront_one.
Qed.

(** A white-space byte at the end of a line is trimmed away. *)
Lemma TrimSpace_snoc c l : asciiSpace c = true → TrimSpace (l ++ [c]) = TrimSpace l.
Proof.
  intros Hc. unfold TrimSpace. rewrite trimLeft_snoc by done.
  destruct (trimLeft l) as [|x t] eqn:Ht; [done|].
  by apply trimRight_snoc.
Qed.

Lemma parseLine_snoc fields r l c :
  asciiSpace c = true → parseLine fields r (l ++ [c]) = parseLine fields r l.
Proof.
  intros Hc. rewrite !parseLine_fieldOf. unfold fieldOf.
  by rewrite TrimSpace_snoc.
Qed.

Lemma Split_lines lines :
  Forall (λ l, ¬ (LF ∈ l)) lines →
  Split (withLineEnd [LF] lines) LF = lines ++ [[]].
Proof.
  unfold withLineEnd. induction 1 as [|l lines Hl _ IH]; [done|].
  cbn [map concat]. rewrite <- app_assoc. cbn [app].
  by rewrite Split_app, IH.
Qed.

Lemma withLineEnd_CRLF lines :
  withLineEnd [CR; LF] lines = withLineEnd [LF] (map (λ l, l ++ [CR]) lines).
Proof.
  unfold withLineEnd. rewrite map_map. f_equal. apply map_ext.
  intros l. by rewrite <- app_assoc.
Qed.

Lemma parseLines_CRLF fields r lines :
  Forall (λ l, ¬ (LF ∈ l)) lines →
  parseLines fields r (withLineEnd [CR; LF] lines)
  = parseLines fields r (withLineEnd [LF] lines).
Proof.
  intros Hl. unfold parseLines. rewrite withLineEnd_CRLF, !Split_lines; [|done|].
  - rewrite !fold_left_app. f_equal. clear Hl. revert r.
    induction lines as [|l lines IH]; intros r; [done|].
    cbn [map fold_left]. rewrite parseLine_snoc by done. apply IH.
  - apply Forall_map. eapply Forall_impl; [exact Hl|].
    intros l Hn Hin. apply elem_of_app in Hin as [Hin|Hin]; [done|].
    apply list_elem_of_singleton in Hin. discriminate Hin.
Qed.

(** X14: carriage returns before the line feeds do not count.  A text whose
    lines end with CR LF is parsed to the same response as the text with the
    same lines ending with LF. *)
Theorem CRLF_as_LF {S E} (rc : RDAPClient S E) (response : RDAPResponse)
    (lines : list (list ascii)) :
  Forall (λ l, ¬ (LF ∈ l)) lines →
  parseDomainWhois rc response (withLineEnd [CR; LF] lines)
  = parseDomainWhois rc response (withLineEnd [LF] lines)
  ∧ parseIPWhois rc response (withLineEnd [CR; LF] lines)
    = parseIPWhois rc response (withLineEnd [LF] lines)
  ∧ parseASNWhois rc response (withLineEnd [CR; LF] lines)
    = parseASNWhois rc response (withLineEnd [LF] lines).
Proof. intros H. repeat split; by apply parseLines_CRLF. Qed.

Lemma CRLF_as_LF_witness :
  Forall (λ l, ¬ (LF ∈ l)) [str "netname: DOC"; str "country: ZZ"]
  ∧ parseIPWhois offlineClient (newResponse [])
      (withLineEnd [CR; LF] [str "netname: DOC"; str "country: ZZ"])
    = parseIPWhois offlineClient (newResponse [])
        (withLineEnd [LF] [str "netname: DOC"; str "country: ZZ"]).
Proof.
  assert (H : Forall (λ l, ¬ (LF ∈ l)) [str "netname: DOC"; str "country: ZZ"]).
  { repeat constructor; apply (bool_decide_unpack _); vm_compute; exact I. }
  split; [exact H|].
  apply (proj1 (proj2 (CRLF_as_LF offlineClient (newResponse [])
                         [str "netname: DOC"; str "country: ZZ"] H))).
Defined.

(** ** The entries of the catch-all map *)

Lemma convert_parsed {S E} (rc : RDAPClient S E) query raw :
  ∃ r, convertWhoisToRDAP rc query raw = Ok r
       ∧ ∀ label, WhoisParsed r !! label
                  = match classify query with
                    | Unknown => None
                    | _ => lastValue label (fieldsOf raw)
                    end.
Proof.
  unfold convertWhoisToRDAP, classify. eexists. split; [reflexivity|].
  intros label. cbn [WhoisParsed appendNotice].
  unfold parseDomainWhois, parseIPWhois, parseASNWhois.
  destruct (isDomain query).
  { rewrite (parseLines_parsed _ domain_parsed). cbn [WhoisParsed asDomain newResponse].
    rewrite lookup_empty. by destruct (lastValue label (fieldsOf raw)). }
  destruct (isIP query).
  { rewrite (parseLines_parsed _ ip_parsed). cbn [WhoisParsed asIP newResponse].
    rewrite lookup_empty.
    destruct (streq (getIPVersion query) (str "v6"));
      by destruct (lastValue label (fieldsOf raw)). }
  destruct (isASN query).
  { rewrite (parseLines_parsed _ asn_parsed). cbn [WhoisParsed asAutnum newResponse].
    rewrite lookup_empty. by destruct (lastValue label (fieldsOf raw)). }
  apply lookup_empty.
Qed.

(** X15: for a query of a known kind the catch-all map of the envelope is
    read off the text alone: it holds for every label the value of the last
    field of the text with that label, and nothing for a label that no field
    has; so two queries of known kinds get the same map from the same
    text. *)
Theorem parsed_map_by_text {S E} (rc : RDAPClient S E)
    (query query' raw : list ascii) (r r' : RDAPResponse) :
  classify query ≠ Unknown →
  convertWhoisToRDAP rc query raw = Ok r →
  (∀ label, WhoisParsed r !! label = lastValue label (fieldsOf raw))
  ∧ (classify query' ≠ Unknown →
     convertWhoisToRDAP rc query' raw = Ok r' →
     WhoisParsed r = WhoisParsed r').
Proof.
  intros Hk Hr.
  destruct (convert_parsed rc query raw) as (r0 & Hr0 & Hl).
  rewrite Hr in Hr0. injection Hr0 as <-.
  assert (Hmap : ∀ label, WhoisParsed r !! label = lastValue label (fieldsOf raw)).
  { intros label. rewrite Hl. by destruct (classify query). }
  split; [exact Hmap|]. intros Hk' Hr'.
  destruct (convert_parsed rc query' raw) as (r1 & Hr1 & Hl').
  rewrite Hr' in Hr1. injection Hr1 as <-.
  apply map_eq. intros label. rewrite Hmap, Hl'. by destruct (classify query').
Qed.

Lemma parsed_map_by_text_witness :
  classify (str "example.com") ≠ Unknown ∧ classify (str "8.8.8.8") ≠ Unknown
  ∧ ∀ r r',
      convertWhoisToRDAP offlineClient (str "example.com") (str "created: today")
      = Ok r →
      convertWhoisToRDAP offlineClient (str "8.8.8.8") (str "created: today")
      = Ok r' →
      WhoisParsed r = WhoisParsed r'.
Proof.
  assert (H1 : classify (str "example.com") ≠ Unknown) by (vm_compute; discriminate).
  assert (H2 : classify (str "8.8.8.8") ≠ Unknown) by (vm_compute; discriminate).
  split; [exact H1|]. split; [exact H2|]. intros r r' Hr Hr'.
  exact (proj2 (parsed_map_by_text offlineClient (str "example.com")
                  (str "8.8.8.8") (str "created: today") r r' H1 Hr) H2 Hr').
Defined.

Lemma TrimSpace_inside x : ∃ before after, x = before ++ TrimSpace x ++ after.
Proof.
  unfold TrimSpace.
  destruct (trimFront_suffix space2 space3 x) as [w Hw].
  destruct (trimRight_prefix (trimLeft x)) as [w' Hw'].
  exists w, w'. unfold trimLeft in *. by rewrite <- Hw', <- Hw.
Qed.

Lemma TrimSpace_elem c x : c ∈ TrimSpace x → c ∈ x.
Proof.
  intros H. destruct (TrimSpace_inside x) as (a & b & Hx). rewrite Hx.
  apply elem_of_app. right. apply elem_of_app. by left.
Qed.

Lemma lastValue_elem label fs v :
  lastValue label fs = Some v → (label, v) ∈ fs.
Proof.
  unfold lastValue. intros H. apply last_Some_elem_of in H.
  apply list_elem_of_omap in H as ([k v'] & Hin & Hv).
  unfold valueFor in Hv. cbn [fst snd] in Hv.
  destruct (streq k label) eqn:Hk; [|discriminate].
  apply streq_true in Hk. injection Hv as <-. by subst k.
Qed.

Lemma fieldOf_Some line k v :
  fieldOf line = Some (k, v) →
  ¬ (":"%char ∈ k)
  ∧ leadingSpace k = false ∧ trailingSpace k = false
  ∧ leadingSpace v = false ∧ trailingSpace v = false.
Proof.
  unfold fieldOf.
  destruct (streq (TrimSpace line) [] || HasPrefix (TrimSpace line) (str "%"));
    [discriminate|].
  destruct (Cut (TrimSpace line) ":") as [[label value]|] eqn:Hc; [|discriminate].
  intros [= <- <-]. apply Cut_Some in Hc as [_ Hn].
  pose proof (TrimSpace_trimmed label) as [? ?].
  pose proof (TrimSpace_trimmed value) as [? ?].
  split; [|done]. intros Hin. by apply TrimSpace_elem in Hin.
Qed.

(** X16: every entry of the catch-all map of an envelope comes from a line
    of the text that carries it as its field; its label contains no colon,
    and neither the label nor the value has white space at either end. *)
Theorem parsed_entries_are_fields {S E} (rc : RDAPClient S E)
    (query raw : list ascii) (r : RDAPResponse) (k v : list ascii) :
  convertWhoisToRDAP rc query raw = Ok r →
  WhoisParsed r !! k = Some v →
  (∃ line, line ∈ Split raw LF ∧ fieldOf line = Some (k, v))
  ∧ ¬ (":"%char ∈ k)
  ∧ leadingSpace k = false ∧ trailingSpace k = false
  ∧ leadingSpace v = false ∧ trailingSpace v = false.
Proof.
  intros Hr Hkv.
  destruct (convert_parsed rc query raw) as (r0 & Hr0 & Hl).
  rewrite Hr in Hr0. injection Hr0 as <-. rewrite Hl in Hkv.
  assert (Hlast : lastValue k (fieldsOf raw) = Some v).
  { by destruct (classify query). }
  apply lastValue_elem in Hlast. unfold fieldsOf in Hlast.
  apply list_elem_of_omap in Hlast as (line & Hin & Hf).
  split; [by exists line|]. by apply fieldOf_Some in Hf.
Qed.

Lemma parsed_entries_are_fields_witness :
  ∃ r, convertWhoisToRDAP offlineClient (str "example.com")
         (str "  Created :  2001-02-19T21:00:00Z  ") = Ok r
       ∧ WhoisParsed r !! str "Created" = Some (str "2001-02-19T21:00:00Z")
       ∧ ¬ (":"%char ∈ str "Created")
       ∧ leadingSpace (str "2001-02-19T21:00:00Z") = false.
Proof.
  eexists. split; [reflexivity|].
  assert (Hl : WhoisParsed
                 (appendNotice termsOfService
                    (parseDomainWhois offlineClient
                       (asDomain (str "example.com")
                          (newResponse (str "  Created :  2001-02-19T21:00:00Z  ")))
                       (str "  Created :  2001-02-19T21:00:00Z  ")))
               !! str "Created" = Some (str "2001-02-19T21:00:00Z")).
  { vm_compute. reflexivity. }
  split; [exact Hl|].
  destruct (parsed_entries_are_fields offlineClient (str "example.com")
              (str "  Created :  2001-02-19T21:00:00Z  ") _ _ _ eq_refl Hl)
    as (_ & H1 & _ & _ & H2 & _).
  split; [exact H1|exact H2].
Defined.

(** X17: the two IP kinds.  A query is of kind IPv6 exactly when it is a
    non-empty string of hexadecimal digits and colons with a colon in it; it
    is of kind IPv4 exactly when it has the dotted shape or is such a string
    without a colon. *)
Theorem ip_versions (query : list ascii) :
  (classify query = IPv6
   ↔ hexColonShape query = true ∧ ":"%char ∈ query)
  ∧ (classify query = IPv4
     ↔ dottedQuadShape query = true
       ∨ (hexColonShape query = true ∧ ¬ (":"%char ∈ query))).
Proof.
  assert (Hcolon : Contains query (str ":") = true ↔ ":"%char ∈ query)
    by apply (Contains_one query ":").
  destruct (isIP query) eqn:Hip.
  - destruct (classify_IP _ Hip) as [_ ->].
    apply isIP_shape in Hip.
    destruct (Contains query (str ":")) eqn:Hc.
    + assert (Hin : ":"%char ∈ query) by by apply Hcolon.
      assert (Hq : dottedQuadShape query = false).
      { destruct (dottedQuadShape query) eqn:Hq; [|done].
        by destruct (dottedQuadShape_bytes _ Hq _ Hin). }
      rewrite Hq in *. destruct Hip as [?|Hh]; [done|]. split.
      * split; [done|]. by intros _.
      * split; [done|]. intros [?|[_ Hn]]; [done|]. by destruct Hn.
    + assert (Hn : ¬ (":"%char ∈ query)).
      { intros Hin. apply Hcolon in Hin. congruence. }
      split.
      * split; [done|]. by intros [_ ?].
      * split; [|done]. intros _. destruct Hip; auto.
  - assert (Hs : dottedQuadShape query = false ∧ hexColonShape query = false).
    { destruct (dottedQuadShape query) eqn:H1, (hexColonShape query) eqn:H2;
        try done;
        (assert (isIP query = true) by (apply isIP_shape; auto); congruence). }
    destruct Hs as [-> ->]. unfold classify. rewrite Hip.
    destruct (isDomain query), (isASN query); split; split; try done;
      try (by intros [? ?]); try (by intros [?|[? ?]]).
Qed.

(** ** A text without fields *)

Lemma Join_elem sep c l : ∀ pieces, l ∈ pieces → c ∈ l → c ∈ Join pieces sep.
Proof.
  induction pieces as [|p [|p' ps] IH]; intros Hl Hc.
  - by apply elem_of_nil in Hl.
  - apply list_elem_of_singleton in Hl. by subst p.
  - change (Join (p :: p' :: ps) sep) with (p ++ sep :: Join (p' :: ps) sep).
    apply elem_of_cons in Hl as [->|Hl].
    + apply elem_of_app. by left.
    + apply elem_of_app. right. apply elem_of_cons. right. by apply IH.
Qed.

Lemma Split_elem s sep l c : l ∈ Split s sep → c ∈ l → c ∈ s.
Proof.
  intros Hl Hc. rewrite <- (Split_Join s sep). by eapply Join_elem.
Qed.

Lemma fieldOf_no_colon line : ¬ (":"%char ∈ line) → fieldOf line = None.
Proof.
  intros Hn. unfold fieldOf.
  destruct (streq _ _ || HasPrefix _ _); [done|].
  rewrite Cut_None; [done|]. intros Hin. by apply TrimSpace_elem in Hin.
Qed.

Lemma fieldsOf_no_colon raw : ¬ (":"%char ∈ raw) → fieldsOf raw = [].
Proof.
  intros Hn. unfold fieldsOf.
  assert (H : Forall (λ l, fieldOf l = None) (Split raw LF)).
  { apply Forall_forall. intros l Hl. apply fieldOf_no_colon.
    intros Hin. by apply (Split_elem _ _ _ _ Hl) in Hin. }
  induction H as [|l ls Hl _ IH]; [done|]. cbn [omap list_omap]. by rewrite Hl.
Qed.

(** X18: a text without any colon, such as a message that nothing was
    found, has no fields, and each of the three parsers leaves the response
    as it is. *)
Theorem no_colon_no_fields {S E} (rc : RDAPClient S E) (response : RDAPResponse)
    (whoisData : list ascii) :
  ¬ (":"%char ∈ whoisData) →
  fieldsOf whoisData = []
  ∧ parseDomainWhois rc response whoisData = response
  ∧ parseIPWhois rc response whoisData = response
  ∧ parseASNWhois rc response whoisData = response.
Proof.
  intros Hn. pose proof (fieldsOf_no_colon _ Hn) as Hf. split; [done|].
  unfold parseDomainWhois, parseIPWhois, parseASNWhois.
  rewrite !parseLines_fieldsOf, Hf. done.
Qed.

Lemma no_colon_no_fields_witness :
  ¬ (":"%char ∈ str "No entries found for the selected source(s).")
  ∧ parseDomainWhois offlineClient (newResponse [])
      (str "No entries found for the selected source(s).")
    = newResponse [].
Proof.
  assert (H : ¬ (":"%char ∈ str "No entries found for the selected source(s).")).
  { apply (bool_decide_unpack _). vm_compute. exact I. }
  split; [exact H|].
  apply (proj1 (proj2 (no_colon_no_fields offlineClient (newResponse [])
                         (str "No entries found for the selected source(s).") H))).
Defined.

